(** * pbs-exporter: the metric-collection pipeline of [main.go]

    A shallow embedding of the Prometheus collector of the Proxmox Backup
    Server exporter.  One scrape ([Exporter.Collect]) issues a sequence of
    authenticated GET requests and writes gauge samples to a channel.  The
    embedding threads three things through every call, as the Go code does
    through its side effects:

    - [ch], the samples written to the collector channel, in order;
    - [reqs], the requests handed to [client.Do], in order;
    - [logs], what was written with the [log] package.

    Everything outside the repository (the backup server, [net/http],
    [encoding/json], the iteration order of Go maps) is gathered in one
    record, [Env], over which every theorem quantifies. *)

From stdpp Require Import gmap strings list fin_maps.
From Stdlib Require Import ZArith Floats.PrimFloat Floats.SpecFloat Floats.FloatOps.

Local Open Scope Z_scope.

(** ** Machine numbers *)

(** Go's [int] on the 64-bit targets the exporter is built for: two's
    complement, wrapping on overflow. *)
Definition int_min : Z := - 2 ^ 63.
Definition int_max : Z := 2 ^ 63 - 1.
Definition int_wrap (z : Z) : Z := (z + 2 ^ 63) mod 2 ^ 64 - 2 ^ 63.

(** [len(s)] of a slice, as an [int]. *)
Definition len {A} (s : list A) : Z := Z.of_nat (length s).

(** The conversion [float64(x)] of an integer: the nearest binary64 value,
    ties to even. *)
Definition float64_of_int (z : Z) : float :=
  SF2Prim (binary_normalize prec emax z 0 false).

(** ** The Prometheus client library: descriptors and constant metrics *)

Module prometheus.

(** [BuildFQName] joins the non-empty parts with an underscore and yields
    the empty string when the name itself is empty. *)
Definition BuildFQName (namespace subsystem name : string) : string :=
  if decide (name = "") then ""
  else
    (if decide (namespace = "") then "" else namespace +:+ "_")
    +:+ (if decide (subsystem = "") then "" else subsystem +:+ "_")
    +:+ name.

Record Desc := NewDesc {
  fqName : string;
  help : string;
  variableLabels : list string;
  constLabels : list (string * string)
}.

Inductive ValueType := CounterValue | GaugeValue | UntypedValue.

Record Metric := MustNewConstMetric {
  desc : Desc;
  valueType : ValueType;
  value : float;
  labelValues : list string
}.

End prometheus.

Import prometheus.

(** ** Constants and descriptors of [main.go] *)

Definition promNamespace : string := "pbs".
Definition datastoreUsageApi : string := "/api2/json/status/datastore-usage".
Definition datastoreApi : string := "/api2/json/admin/datastore".
Definition nodeApi : string := "/api2/json/nodes".

Definition up : Desc :=
  NewDesc (BuildFQName promNamespace "" "up")
    "Was the last query of PBS successful." [] [].
Definition available : Desc :=
  NewDesc (BuildFQName promNamespace "" "available")
    "The available bytes of the underlying storage." [] [].
Definition size : Desc :=
  NewDesc (BuildFQName promNamespace "" "size")
    "The size of the underlying storage in bytes." [] [].
Definition used : Desc :=
  NewDesc (BuildFQName promNamespace "" "used")
    "The used bytes of the underlying storage." [] [].
Definition snapshot_count : Desc :=
  NewDesc (BuildFQName promNamespace "" "snapshot_count")
    "The total number of backups." ["namespace"] [].
Definition snapshot_vm_count : Desc :=
  NewDesc (BuildFQName promNamespace "" "snapshot_vm_count")
    "The total number of backups per VM." ["namespace"; "vm_id"] [].
Definition host_cpu_usage : Desc :=
  NewDesc (BuildFQName promNamespace "" "host_cpu_usage")
    "The CPU usage of the host." [] [].
Definition host_memory_free : Desc :=
  NewDesc (BuildFQName promNamespace "" "host_memory_free")
    "The free memory of the host." [] [].
Definition host_memory_total : Desc :=
  NewDesc (BuildFQName promNamespace "" "host_memory_total")
    "The total memory of the host." [] [].
Definition host_memory_used : Desc :=
  NewDesc (BuildFQName promNamespace "" "host_memory_used")
    "The used memory of the host." [] [].
Definition host_swap_free : Desc :=
  NewDesc (BuildFQName promNamespace "" "host_swap_free")
    "The free swap of the host." [] [].
Definition host_swap_total : Desc :=
  NewDesc (BuildFQName promNamespace "" "host_swap_total")
    "The total swap of the host." [] [].
Definition host_swap_used : Desc :=
  NewDesc (BuildFQName promNamespace "" "host_swap_used")
    "The used swap of the host." [] [].
Definition host_disk_available : Desc :=
  NewDesc (BuildFQName promNamespace "" "host_available_free")
    "The available disk of the local root disk in bytes." [] [].
Definition host_disk_total : Desc :=
  NewDesc (BuildFQName promNamespace "" "host_disk_total")
    "The total disk of the local root disk in bytes." [] [].
Definition host_disk_used : Desc :=
  NewDesc (BuildFQName promNamespace "" "host_disk_used")
    "The used disk of the local root disk in bytes." [] [].
Definition host_uptime : Desc :=
  NewDesc (BuildFQName promNamespace "" "host_uptime")
    "The uptime of the host." [] [].
Definition host_io_wait : Desc :=
  NewDesc (BuildFQName promNamespace "" "host_io_wait")
    "The io wait of the host." [] [].

(** ** Decoded API responses *)

Record Datastore := {
  Avail : Z;
  Store : string;
  Total : Z;
  Used : Z;
  Namespace : string
}.

Record DatastoreResponse := { DatastoreResponse_Data : list Datastore }.

Record NamespaceEntry := { ns : string }.
Record NamespaceResponse := { NamespaceResponse_Data : list NamespaceEntry }.

Record Snapshot := { BackupID : string }.
Record SnapshotResponse := { SnapshotResponse_Data : list Snapshot }.

Record Usage := { Free : Z; Usage_Total : Z; Usage_Used : Z }.
Record DiskUsage := { Disk_Avail : Z; Disk_Total : Z; Disk_Used : Z }.

Record HostData := {
  CPU : float;
  Mem : Usage;
  Swap : Usage;
  Disk : DiskUsage;
  Uptime : Z;
  Wait : float
}.

Record HostResponse := { HostResponse_Data : HostData }.

(** ** HTTP requests and responses *)

Record Request := {
  Method : string;
  URL : string;
  Header : gmap string (list string)
}.

(** [req.Header.Set(key, value)] replaces whatever the key held by the one
    value. *)
Definition Header_Set (key value : string) (req : Request) : Request :=
  {| Method := Method req; URL := URL req;
     Header := <[key := [value]]> (Header req) |}.

(** A response as [client.Do] hands it over: the status line has been read,
    the body is still to be read; [Body = None] stands for a body whose
    reading fails ([io.ReadAll] returns an error: the connection breaks, or
    the timeout of the client runs out, before the body is complete). *)
Record Response := {
  StatusCode : Z;
  Body : option string
}.

(** ** Errors and log lines *)

Inductive error :=
| ErrNewRequest (method url : string)
| ErrDo (req : Request)
| ErrReadAll
| Errorf (format : string) (code : Z) (endpoint : string)
| ErrUnmarshal (body : string).

Inductive arg :=
| AString (s : string)
| AInt (z : Z)
| AHeader (h : gmap string (list string)).

Inductive logline :=
| Printf (format : string) (args : list arg)
| Println (err : error).

(** ** The environment of a scrape *)

(** What the program does not decide.  [Do] and [map_range] take the number
    of requests issued so far in the scrape, so that the server may answer
    the same request differently at different times, and each [range] over
    a map may pick an order of its own. *)
Record Env := {
  NewRequest_accepts : string -> string -> bool;
  Do : nat -> Request -> option Response;
  Unmarshal_DatastoreResponse : string -> option DatastoreResponse;
  Unmarshal_NamespaceResponse : string -> option NamespaceResponse;
  Unmarshal_SnapshotResponse : string -> option SnapshotResponse;
  Unmarshal_HostResponse : string -> option HostResponse;
  map_range : nat -> gmap string Z -> list (string * Z);
  map_range_perm : forall n (m : gmap string Z), map_range n m ≡ₚ map_to_list m
}.

(** ** The state a scrape acts on, and the monad of its functions *)

Record State := {
  ch : list Metric;
  reqs : list Request;
  logs : list logline
}.

Definition State0 : State := {| ch := []; reqs := []; logs := [] |}.

Inductive Result (A : Type) :=
| Ok (a : A)
| Err (e : error).
Arguments Ok {A} a.
Arguments Err {A} e.

Definition M (A : Type) : Type := State -> Result A * State.

Definition ret {A} (a : A) : M A := fun s => (Ok a, s).
Definition fail {A} (e : error) : M A := fun s => (Err e, s).
Definition bind {A B} (m : M A) (k : A -> M B) : M B :=
  fun s => match m s with
           | (Ok a, s') => k a s'
           | (Err e, s') => (Err e, s')
           end.

Notation "x <- m ;; k" := (bind m (fun x => k))
  (at level 100, m at next level, right associativity).
Notation "m ;; k" := (bind m (fun _ => k))
  (at level 100, right associativity).

(** [ch <- metric] *)
Definition send (m : Metric) : M unit :=
  fun s => (Ok tt, {| ch := ch s ++ [m]; reqs := reqs s; logs := logs s |}).

Definition log (l : logline) : M unit :=
  fun s => (Ok tt, {| ch := ch s; reqs := reqs s; logs := logs s ++ [l] |}).

(** [if cond { body }] for a body that only has effects. *)
Definition when (cond : bool) (body : M unit) : M unit :=
  if cond then body else ret tt.

(** [for _, x := range s { body }], where the body may return early with an
    error. *)
Fixpoint for_range {A} (s : list A) (body : A -> M unit) : M unit :=
  match s with
  | [] => ret tt
  | x :: rest => body x ;; for_range rest body
  end.

(** ** The exporter *)

Record Exporter := {
  endpoint : string;
  authorizationHeader : string
}.

Definition NewExporter (endpoint username apitoken apitokenname : string)
  : Exporter :=
  {| endpoint := endpoint;
     authorizationHeader :=
       "PBSAPIToken=" +:+ username +:+ "!" +:+ apitokenname +:+ ":" +:+ apitoken |}.

(** [Describe] sends the eighteen descriptors. *)
Definition Describe : list Desc :=
  [ up; available; size; used; snapshot_count; snapshot_vm_count;
    host_cpu_usage; host_memory_free; host_memory_total; host_memory_used;
    host_swap_free; host_swap_total; host_swap_used;
    host_disk_available; host_disk_total; host_disk_used;
    host_uptime; host_io_wait ].

Section Scrape.

Context (env : Env).
(** The value of the [-pbs.loglevel] flag, a global of the program. *)
Context (loglevel : string).

Definition debug : bool := bool_decide (loglevel = "debug").

(** *** Library calls, against the environment *)

Definition http_NewRequest (method url : string) : M Request :=
  if NewRequest_accepts env method url
  then ret {| Method := method; URL := url; Header := ∅ |}
  else fail (ErrNewRequest method url).

(** [client.Do(req)]: the request goes out, and is recorded, whether or
    not an answer comes back. *)
Definition client_Do (req : Request) : M Response :=
  fun s =>
    let s' := {| ch := ch s; reqs := reqs s ++ [req]; logs := logs s |} in
    match Do env (length (reqs s)) req with
    | Some resp => (Ok resp, s')
    | None => (Err (ErrDo req), s')
    end.

Definition io_ReadAll (body : option string) : M string :=
  match body with
  | Some b => ret b
  | None => fail ErrReadAll
  end.

Definition json_Unmarshal {A} (decode : string -> option A) (body : string)
  : M A :=
  match decode body with
  | Some a => ret a
  | None => fail (ErrUnmarshal body)
  end.

(** The pairs a [for k, v := range m] visits, in the order this
    particular loop visits them. *)
Definition range_map (m : gmap string Z) : M (list (string * Z)) :=
  fun s => (Ok (map_range env (length (reqs s)) m), s).

(** *** [getNamespaceMetric] *)

(** The loop [vmCount[vmName]++] over the snapshots. *)
Definition count_vms (data : list Snapshot) : gmap string Z :=
  foldl (fun vmCount snapshot =>
           let vmName := BackupID snapshot in
           <[vmName := int_wrap (default 0 (vmCount !! vmName) + 1)]> vmCount)
        ∅ data.

Definition getNamespaceMetric (e : Exporter) (datastore namespace : string)
  : M unit :=
  when debug
    (log (Printf "DEBUG: ----Namespace %s" [AString namespace])) ;;
  req <- http_NewRequest "GET"
           (endpoint e +:+ datastoreApi +:+ "/" +:+ datastore
            +:+ "/snapshots?ns=" +:+ namespace) ;;
  let req := Header_Set "Authorization" (authorizationHeader e) req in
  when debug
    (log (Printf "DEBUG: ----Request URL: %s" [AString (URL req)]) ;;
     log (Printf "DEBUG: ----Request Header: %s" [AHeader (Header req)])) ;;
  resp <- client_Do req ;;
  body <- io_ReadAll (Body resp) ;;
  if bool_decide (StatusCode resp ≠ 200) then
    fail (Errorf "ERROR: ----Status code %d returned from endpoint: %s"
            (StatusCode resp) (endpoint e))
  else
  when debug
    (log (Printf "DEBUG: ----Status code %d returned from endpoint: %s"
            [AInt (StatusCode resp); AString (endpoint e)])) ;;
  response <- json_Unmarshal (Unmarshal_SnapshotResponse env) body ;;
  send (MustNewConstMetric snapshot_count GaugeValue
          (float64_of_int (len (SnapshotResponse_Data response)))
          [namespace]) ;;
  let vmCount := count_vms (SnapshotResponse_Data response) in
  entries <- range_map vmCount ;;
  for_range entries (fun '(vmName, count) =>
    send (MustNewConstMetric snapshot_vm_count GaugeValue
            (float64_of_int count) [namespace; vmName])).

(** *** [getDatastoreMetric] *)

Definition getDatastoreMetric (e : Exporter) (datastore : Datastore)
  : M unit :=
  when debug
    (log (Printf "DEBUG: --Store %s" [AString (Store datastore)]) ;;
     log (Printf "DEBUG: --Avail %d" [AInt (Avail datastore)]) ;;
     log (Printf "DEBUG: --Total %d" [AInt (Total datastore)]) ;;
     log (Printf "DEBUG: --Used %d" [AInt (Used datastore)])) ;;
  send (MustNewConstMetric available GaugeValue
          (float64_of_int (Avail datastore)) []) ;;
  send (MustNewConstMetric size GaugeValue
          (float64_of_int (Total datastore)) []) ;;
  send (MustNewConstMetric used GaugeValue
          (float64_of_int (Used datastore)) []) ;;
  req <- http_NewRequest "GET"
           (endpoint e +:+ datastoreApi +:+ "/" +:+ Store datastore
            +:+ "/namespace") ;;
  let req := Header_Set "Authorization" (authorizationHeader e) req in
  when debug
    (log (Printf "DEBUG: --Request URL: %s" [AString (URL req)]) ;;
     log (Printf "DEBUG: --Request Header: %s" [AHeader (Header req)])) ;;
  resp <- client_Do req ;;
  body <- io_ReadAll (Body resp) ;;
  if bool_decide (StatusCode resp ≠ 200) then
    fail (Errorf "ERROR: --Status code %d returned from endpoint: %s"
            (StatusCode resp) (endpoint e))
  else
  when debug
    (log (Printf "DEBUG: --Status code %d returned from endpoint: %s"
            [AInt (StatusCode resp); AString (endpoint e)])) ;;
  response <- json_Unmarshal (Unmarshal_NamespaceResponse env) body ;;
  for_range (NamespaceResponse_Data response) (fun namespace =>
    if bool_decide (ns namespace = "") then
      ret tt
    else
      getNamespaceMetric e (Store datastore) (ns namespace)).

(** *** [getNodeMetrics] *)

Definition getNodeMetrics (e : Exporter) : M unit :=
  req <- http_NewRequest "GET"
           (endpoint e +:+ nodeApi +:+ "/localhost/status") ;;
  let req := Header_Set "Authorization" (authorizationHeader e) req in
  when debug
    (log (Printf "DEBUG: Request URL: %s" [AString (URL req)]) ;;
     log (Printf "DEBUG: Request Header: %s" [AHeader (Header req)])) ;;
  resp <- client_Do req ;;
  body <- io_ReadAll (Body resp) ;;
  if bool_decide (StatusCode resp ≠ 200) then
    fail (Errorf "ERROR: Status code %d returned from endpoint: %s"
            (StatusCode resp) (endpoint e))
  else
  when debug
    (log (Printf "DEBUG: Status code %d returned from endpoint: %s"
            [AInt (StatusCode resp); AString (endpoint e)])) ;;
  response <- json_Unmarshal (Unmarshal_HostResponse env) body ;;
  let data := HostResponse_Data response in
  send (MustNewConstMetric host_cpu_usage GaugeValue (CPU data) []) ;;
  send (MustNewConstMetric host_memory_free GaugeValue
          (float64_of_int (Free (Mem data))) []) ;;
  send (MustNewConstMetric host_memory_total GaugeValue
          (float64_of_int (Usage_Total (Mem data))) []) ;;
  send (MustNewConstMetric host_memory_used GaugeValue
          (float64_of_int (Usage_Used (Mem data))) []) ;;
  send (MustNewConstMetric host_swap_free GaugeValue
          (float64_of_int (Free (Swap data))) []) ;;
  send (MustNewConstMetric host_swap_total GaugeValue
          (float64_of_int (Usage_Total (Swap data))) []) ;;
  send (MustNewConstMetric host_swap_used GaugeValue
          (float64_of_int (Usage_Used (Swap data))) []) ;;
  send (MustNewConstMetric host_disk_available GaugeValue
          (float64_of_int (Disk_Avail (Disk data))) []) ;;
  send (MustNewConstMetric host_disk_total GaugeValue
          (float64_of_int (Disk_Total (Disk data))) []) ;;
  send (MustNewConstMetric host_disk_used GaugeValue
          (float64_of_int (Disk_Used (Disk data))) []) ;;
  send (MustNewConstMetric host_uptime GaugeValue
          (float64_of_int (Uptime data)) []) ;;
  send (MustNewConstMetric host_io_wait GaugeValue (Wait data) []).

(** *** [collectFromAPI] and [Collect] *)

Definition collectFromAPI (e : Exporter) : M unit :=
  req <- http_NewRequest "GET" (endpoint e +:+ datastoreUsageApi) ;;
  let req := Header_Set "Authorization" (authorizationHeader e) req in
  when debug
    (log (Printf "DEBUG: Request URL: %s" [AString (URL req)]) ;;
     log (Printf "DEBUG: Request Header: %s" [AHeader (Header req)])) ;;
  resp <- client_Do req ;;
  body <- io_ReadAll (Body resp) ;;
  if bool_decide (StatusCode resp ≠ 200) then
    fail (Errorf "ERROR: Status code %d returned from endpoint: %s"
            (StatusCode resp) (endpoint e))
  else
  when debug
    (log (Printf "DEBUG: Status code %d returned from endpoint: %s"
            [AInt (StatusCode resp); AString (endpoint e)])) ;;
  response <- json_Unmarshal (Unmarshal_DatastoreResponse env) body ;;
  for_range (DatastoreResponse_Data response) (fun datastore =>
    getDatastoreMetric e datastore) ;;
  getNodeMetrics e.

(** [Collect] never fails: an error of [collectFromAPI] becomes the sample
    [up = 0] and a log line. *)
Definition Collect (e : Exporter) : State -> State :=
  fun s =>
    match collectFromAPI e s with
    | (Err err, s') =>
        snd ((send (MustNewConstMetric up GaugeValue 0%float []) ;;
              log (Println err)) s')
    | (Ok _, s') =>
        snd (send (MustNewConstMetric up GaugeValue 1%float []) s')
    end.

End Scrape.

(** ** Start-up: flags, environment variables, and the exporter built from
    them *)

Module Main.

(** The flag variables of the program, after [flag.Parse]. *)
Record Flags := {
  endpoint : string;
  username : string;
  apitoken : string;
  apitokenname : string;
  timeout : string;
  insecure : string;
  metricsPath : string;
  listenAddress : string;
  loglevel : string
}.

(** The defaults given where the flags are declared. *)
Definition defaults : Flags :=
  {| endpoint := "http://localhost:8007";
     username := "root@pam";
     apitoken := "";
     apitokenname := "pbs-exporter";
     timeout := "5s";
     insecure := "false";
     metricsPath := "/metrics";
     listenAddress := ":9101";
     loglevel := "info" |}.

(** Assignments [*flag = v]. *)
Definition set_endpoint (v : string) (f : Flags) : Flags :=
  {| endpoint := v; username := username f; apitoken := apitoken f;
     apitokenname := apitokenname f; timeout := timeout f;
     insecure := insecure f; metricsPath := metricsPath f;
     listenAddress := listenAddress f; loglevel := loglevel f |}.
Definition set_username (v : string) (f : Flags) : Flags :=
  {| endpoint := endpoint f; username := v; apitoken := apitoken f;
     apitokenname := apitokenname f; timeout := timeout f;
     insecure := insecure f; metricsPath := metricsPath f;
     listenAddress := listenAddress f; loglevel := loglevel f |}.
Definition set_apitoken (v : string) (f : Flags) : Flags :=
  {| endpoint := endpoint f; username := username f; apitoken := v;
     apitokenname := apitokenname f; timeout := timeout f;
     insecure := insecure f; metricsPath := metricsPath f;
     listenAddress := listenAddress f; loglevel := loglevel f |}.
Definition set_apitokenname (v : string) (f : Flags) : Flags :=
  {| endpoint := endpoint f; username := username f; apitoken := apitoken f;
     apitokenname := v; timeout := timeout f;
     insecure := insecure f; metricsPath := metricsPath f;
     listenAddress := listenAddress f; loglevel := loglevel f |}.
Definition set_timeout (v : string) (f : Flags) : Flags :=
  {| endpoint := endpoint f; username := username f; apitoken := apitoken f;
     apitokenname := apitokenname f; timeout := v;
     insecure := insecure f; metricsPath := metricsPath f;
     listenAddress := listenAddress f; loglevel := loglevel f |}.
Definition set_insecure (v : string) (f : Flags) : Flags :=
  {| endpoint := endpoint f; username := username f; apitoken := apitoken f;
     apitokenname := apitokenname f; timeout := timeout f;
     insecure := v; metricsPath := metricsPath f;
     listenAddress := listenAddress f; loglevel := loglevel f |}.
Definition set_metricsPath (v : string) (f : Flags) : Flags :=
  {| endpoint := endpoint f; username := username f; apitoken := apitoken f;
     apitokenname := apitokenname f; timeout := timeout f;
     insecure := insecure f; metricsPath := v;
     listenAddress := listenAddress f; loglevel := loglevel f |}.
Definition set_listenAddress (v : string) (f : Flags) : Flags :=
  {| endpoint := endpoint f; username := username f; apitoken := apitoken f;
     apitokenname := apitokenname f; timeout := timeout f;
     insecure := insecure f; metricsPath := metricsPath f;
     listenAddress := v; loglevel := loglevel f |}.
Definition set_loglevel (v : string) (f : Flags) : Flags :=
  {| endpoint := endpoint f; username := username f; apitoken := apitoken f;
     apitokenname := apitokenname f; timeout := timeout f;
     insecure := insecure f; metricsPath := metricsPath f;
     listenAddress := listenAddress f; loglevel := v |}.

(** [os.Getenv]: the value of the variable, empty when it is not set. *)
Definition Getenv (environ : gmap string string) (key : string) : string :=
  default "" (environ !! key).

(** [if os.Getenv(key) != "" { *flag = os.Getenv(key) }] *)
Definition override (environ : gmap string string) (key : string)
    (set : string -> Flags -> Flags) (f : Flags) : Flags :=
  if bool_decide (Getenv environ key ≠ "") then set (Getenv environ key) f
  else f.

(** The nine overrides at the head of [main], in their order. *)
Definition apply_environment (environ : gmap string string) (f : Flags)
  : Flags :=
  let f := override environ "PBS_LOGLEVEL" set_loglevel f in
  let f := override environ "PBS_ENDPOINT" set_endpoint f in
  let f := override environ "PBS_USERNAME" set_username f in
  let f := override environ "PBS_API_TOKEN_NAME" set_apitokenname f in
  let f := override environ "PBS_API_TOKEN" set_apitoken f in
  let f := override environ "PBS_TIMEOUT" set_timeout f in
  let f := override environ "PBS_INSECURE" set_insecure f in
  let f := override environ "PBS_METRICS_PATH" set_metricsPath f in
  let f := override environ "PBS_LISTEN_ADDRESS" set_listenAddress f in
  f.

(** [strconv.ParseBool] *)
Definition ParseBool (str : string) : option bool :=
  if bool_decide (str ∈ ["1"; "t"; "T"; "true"; "TRUE"; "True"]) then Some true
  else if bool_decide (str ∈ ["0"; "f"; "F"; "false"; "FALSE"; "False"])
       then Some false
  else None.

(** What [main] has set up when it starts to serve, or the fatal log line
    it ended with.  The log lines of a start-up that goes through and the
    HTTP server itself are left out. *)
Record Server := {
  exporter : Exporter;
  InsecureSkipVerify : bool;
  Timeout : Z;
  flags : Flags
}.

Inductive Startup :=
| Fatalf (format : string) (input : string)
| Serving (srv : Server).

Section Startup.

(** [time.ParseDuration], in nanoseconds. *)
Context (ParseDuration : string -> option Z).

Definition main (environ : gmap string string) (parsed : Flags) : Startup :=
  let f := apply_environment environ parsed in
  match ParseBool (insecure f) with
  | None => Fatalf "ERROR: Unable to parse insecure: %s" (insecure f)
  | Some insecureBool =>
      let skip := if insecureBool then true else false in
      match ParseDuration (timeout f) with
      | None => Fatalf "ERROR: Unable to parse timeout: %s" (timeout f)
      | Some timeoutDuration =>
          Serving {| exporter := NewExporter (endpoint f) (username f)
                                   (apitoken f) (apitokenname f);
                     InsecureSkipVerify := skip;
                     Timeout := timeoutDuration;
                     flags := f |}
      end
  end.

End Startup.

(** The configuration items: the environment variable and the flag
    variable it overrides. *)
Definition items : list (string * (Flags -> string)) :=
  [ ("PBS_ENDPOINT", endpoint);
    ("PBS_USERNAME", username);
    ("PBS_API_TOKEN", apitoken);
    ("PBS_API_TOKEN_NAME", apitokenname);
    ("PBS_TIMEOUT", timeout);
    ("PBS_INSECURE", insecure);
    ("PBS_METRICS_PATH", metricsPath);
    ("PBS_LISTEN_ADDRESS", listenAddress);
    ("PBS_LOGLEVEL", loglevel) ].

End Main.

(** * Vocabulary of the statements *)

(** ** Requests *)

(** The request every call builds: GET, with the header of the exporter
    and nothing else. *)
Definition api_request (e : Exporter) (url : string) : Request :=
  {| Method := "GET"; URL := url;
     Header := {[ "Authorization" := [authorizationHeader e] ]} |}.

(** The URLs of the four calls. *)
Definition usage_url (e : Exporter) : string :=
  endpoint e +:+ datastoreUsageApi.

Definition node_url (e : Exporter) : string :=
  endpoint e +:+ nodeApi +:+ "/localhost/status".

Definition namespace_url (e : Exporter) (datastore : string) : string :=
  endpoint e +:+ datastoreApi +:+ "/" +:+ datastore +:+ "/namespace".

Definition snapshots_url (e : Exporter) (datastore namespace : string)
  : string :=
  endpoint e +:+ datastoreApi +:+ "/" +:+ datastore
  +:+ "/snapshots?ns=" +:+ namespace.

(** The request for the snapshot listing of a namespace. *)
Definition snapshots_request (e : Exporter) (datastore namespace : string)
  : Request :=
  api_request e (snapshots_url e datastore namespace).

(** The requests of one datastore whose namespaces [names] are all visited:
    the namespace listing, then one snapshot listing per name. *)
Definition datastore_requests (e : Exporter) (datastore : string)
    (names : list string) : list Request :=
  api_request e (namespace_url e datastore)
  :: (snapshots_request e datastore <$> names).

(** The requests of the datastores [visited], each given with the non-empty
    namespaces visited in it, datastore after datastore. *)
Definition datastores_requests (e : Exporter)
    (visited : list (string * list string)) : list Request :=
  concat ((fun v => datastore_requests e v.1 v.2) <$> visited).

(** The requests of a scrape that goes through the datastores [visited]:
    the usage listing, then the datastores, then the node status. *)
Definition scrape_requests (e : Exporter)
    (visited : list (string * list string)) : list Request :=
  api_request e (usage_url e)
  :: datastores_requests e visited ++ [api_request e (node_url e)].

(** ** Samples *)

Definition up_sample (v : float) : Metric :=
  MustNewConstMetric up GaugeValue v [].

Definition datastore_samples (datastore : Datastore) : list Metric :=
  [ MustNewConstMetric available GaugeValue
      (float64_of_int (Avail datastore)) [];
    MustNewConstMetric size GaugeValue (float64_of_int (Total datastore)) [];
    MustNewConstMetric used GaugeValue (float64_of_int (Used datastore)) [] ].

(** The samples of the host collector, in the order they are sent. *)
Definition host_samples (data : HostData) : list Metric :=
  [ MustNewConstMetric host_cpu_usage GaugeValue (CPU data) [];
    MustNewConstMetric host_memory_free GaugeValue
      (float64_of_int (Free (Mem data))) [];
    MustNewConstMetric host_memory_total GaugeValue
      (float64_of_int (Usage_Total (Mem data))) [];
    MustNewConstMetric host_memory_used GaugeValue
      (float64_of_int (Usage_Used (Mem data))) [];
    MustNewConstMetric host_swap_free GaugeValue
      (float64_of_int (Free (Swap data))) [];
    MustNewConstMetric host_swap_total GaugeValue
      (float64_of_int (Usage_Total (Swap data))) [];
    MustNewConstMetric host_swap_used GaugeValue
      (float64_of_int (Usage_Used (Swap data))) [];
    MustNewConstMetric host_disk_available GaugeValue
      (float64_of_int (Disk_Avail (Disk data))) [];
    MustNewConstMetric host_disk_total GaugeValue
      (float64_of_int (Disk_Total (Disk data))) [];
    MustNewConstMetric host_disk_used GaugeValue
      (float64_of_int (Disk_Used (Disk data))) [];
    MustNewConstMetric host_uptime GaugeValue
      (float64_of_int (Uptime data)) [];
    MustNewConstMetric host_io_wait GaugeValue (Wait data) [] ].

Definition snapshot_count_sample (namespace : string) (n : Z) : Metric :=
  MustNewConstMetric snapshot_count GaugeValue (float64_of_int n) [namespace].

Definition snapshot_vm_count_sample (namespace : string) (entry : string * Z)
  : Metric :=
  MustNewConstMetric snapshot_vm_count GaugeValue (float64_of_int entry.2)
    [namespace; entry.1].

(** The samples of the namespace collector for a decoded listing, when the
    map is ranged over after [n] requests. *)
Definition namespace_samples (env : Env) (n : nat) (namespace : string)
    (data : list Snapshot) : list Metric :=
  snapshot_count_sample namespace (len data)
  :: (snapshot_vm_count_sample namespace
      <$> map_range env n (count_vms data)).

(** How many snapshots of a listing carry the backup-source identifier
    [id]. *)
Definition multiplicity (id : string) (data : list Snapshot) : nat :=
  length (filter (fun snapshot => BackupID snapshot = id) data).

(** The non-empty names of a namespace listing, in its order. *)
Definition named (data : list NamespaceEntry) : list string :=
  filter (fun name => name ≠ "") (ns <$> data).

(** The sum of a list of integers. *)
Definition Z_sum (l : list Z) : Z := foldr Z.add 0 l.

(** The samples of the collectors: gauges, none of them the [up] gauge, each
    with as many label values as its descriptor has labels (so
    [MustNewConstMetric] does not panic). *)
Definition collector_sample (m : Metric) : Prop :=
  desc m ≠ up /\ valueType m = GaugeValue
  /\ length (labelValues m) = length (variableLabels (desc m)).

(** ** One API call *)

(** The four functions that talk to the server open with the same steps:
    build the request, set the header, send it, read the body, check the
    status, decode.  [fetch] is that common opening, with the dashes that
    tell the log lines and error messages of the functions apart; each
    function is shown below to be [fetch] followed by what it does with the
    decoded response. *)

Section FetchVocabulary.

Context (env : Env) (loglevel : string).

Definition fetch {A} (dashes : string) (e : Exporter) (url : string)
    (decode : string -> option A) : M A :=
  req <- http_NewRequest env "GET" url ;;
  let req := Header_Set "Authorization" (authorizationHeader e) req in
  when (debug loglevel)
    (log (Printf ("DEBUG: " +:+ dashes +:+ "Request URL: %s")
            [AString (URL req)]) ;;
     log (Printf ("DEBUG: " +:+ dashes +:+ "Request Header: %s")
            [AHeader (Header req)])) ;;
  resp <- client_Do env req ;;
  body <- io_ReadAll (Body resp) ;;
  if bool_decide (StatusCode resp ≠ 200) then
    fail (Errorf ("ERROR: " +:+ dashes
                  +:+ "Status code %d returned from endpoint: %s")
            (StatusCode resp) (endpoint e))
  else
  when (debug loglevel)
    (log (Printf ("DEBUG: " +:+ dashes
                  +:+ "Status code %d returned from endpoint: %s")
            [AInt (StatusCode resp); AString (endpoint e)])) ;;
  json_Unmarshal decode body.

(** What a call returns, as a function of the number [n] of requests
    issued before it. *)
Definition fetch_outcome {A} (n : nat) (dashes : string) (e : Exporter)
    (url : string) (decode : string -> option A) : Result A :=
  if NewRequest_accepts env "GET" url then
    match Do env n (api_request e url) with
    | None => Err (ErrDo (api_request e url))
    | Some resp =>
        match Body resp with
        | None => Err ErrReadAll
        | Some body =>
            if bool_decide (StatusCode resp ≠ 200) then
              Err (Errorf ("ERROR: " +:+ dashes
                           +:+ "Status code %d returned from endpoint: %s")
                     (StatusCode resp) (endpoint e))
            else match decode body with
                 | Some a => Ok a
                 | None => Err (ErrUnmarshal body)
                 end
        end
    end
  else Err (ErrNewRequest "GET" url).

(** The requests a call issues: one, unless the URL was refused. *)
Definition fetch_requests (e : Exporter) (url : string) : list Request :=
  if NewRequest_accepts env "GET" url then [api_request e url] else [].

End FetchVocabulary.

(** [answers env n e url decode a]: the call to [url], made after [n]
    earlier requests, goes through, the status is 200, and the body decodes
    to [a]. *)
Definition answers {A} (env : Env) (n : nat) (e : Exporter) (url : string)
    (decode : string -> option A) (a : A) : Prop :=
  NewRequest_accepts env "GET" url = true
  /\ exists resp body,
       Do env n (api_request e url) = Some resp
       /\ Body resp = Some body
       /\ StatusCode resp = 200
       /\ decode body = Some a.

(** [refused env n e url resp]: the call to [url], made after [n] earlier
    requests, is answered by [resp], whose status is not 200. *)
Definition refused (env : Env) (n : nat) (e : Exporter) (url : string)
    (resp : Response) : Prop :=
  NewRequest_accepts env "GET" url = true
  /\ Do env n (api_request e url) = Some resp
  /\ StatusCode resp ≠ 200.

(** The error of a call answered by [resp] with a status other than 200:
    the body is read before the status is looked at, so a body that cannot
    be read comes first. *)
Definition refusal (dashes : string) (e : Exporter) (resp : Response)
  : error :=
  match Body resp with
  | Some _ =>
      Errorf ("ERROR: " +:+ dashes
              +:+ "Status code %d returned from endpoint: %s")
        (StatusCode resp) (endpoint e)
  | None => ErrReadAll
  end.

(** The requests of an exporter: GET, with the one header. *)
Definition exporter_request (e : Exporter) (r : Request) : Prop :=
  Method r = "GET"
  /\ Header r = {[ "Authorization" := [authorizationHeader e] ]}.

(** ** Steps of a scrape *)

(** [runs m s r dch dreq]: from [s], [m] returns [r], having sent [dch] and
    requested [dreq]. *)
Definition runs {A} (m : M A) (s : State) (r : Result A)
    (dch : list Metric) (dreq : list Request) : Prop :=
  exists s', m s = (r, s') /\ ch s' = ch s ++ dch /\ reqs s' = reqs s ++ dreq.

(** [keeps Pm Pr m]: whatever [m] returns, it only adds samples satisfying
    [Pm] to the channel and only issues requests satisfying [Pr]. *)
Definition keeps {A} (Pm : Metric -> Prop) (Pr : Request -> Prop) (m : M A)
  : Prop :=
  forall s, exists dch dreq,
    ch (m s).2 = ch s ++ dch /\ reqs (m s).2 = reqs s ++ dreq
    /\ Forall Pm dch /\ Forall Pr dreq.

(** [visits env e datastore n names r dreq]: how the namespace collector
    goes through [names], starting after [n] requests.  Either every name is
    visited, one request each, and the result is [nil]; or the visit of
    some name fails, the names before it were visited, one request each, the
    names after it are not visited, and the result is the error of the
    failing visit. *)
Definition visits (env : Env) (e : Exporter) (datastore : string) (n : nat)
    (names : list string) (r : Result unit) (dreq : list Request) : Prop :=
  (r = Ok tt /\ dreq = snapshots_request e datastore <$> names)
  \/ exists err visited name rest,
       r = Err err
       /\ names = visited ++ name :: rest
       /\ dreq = (snapshots_request e datastore <$> visited)
                 ++ fetch_requests env e (snapshots_url e datastore name)
       /\ fetch_outcome env (n + length visited) "----" e
            (snapshots_url e datastore name)
            (Unmarshal_SnapshotResponse env) = Err err.

(** ** Test backends *)

(** A backend that answers by URL, whatever came before, and a decoder per
    response type that knows the bodies of that backend.  Every URL is
    accepted; maps are ranged over in the order of [map_to_list]. *)
Definition route {A} (table : list (string * A)) (key : string) : option A :=
  (list_to_map table : gmap string A) !! key.

Definition backend (routes : list (string * Response))
    (usage : list (string * DatastoreResponse))
    (namespaces : list (string * NamespaceResponse))
    (snapshots : list (string * SnapshotResponse))
    (status : list (string * HostResponse)) : Env :=
  {| NewRequest_accepts := fun _ _ => true;
     Do := fun _ req => route routes (URL req);
     Unmarshal_DatastoreResponse := route usage;
     Unmarshal_NamespaceResponse := route namespaces;
     Unmarshal_SnapshotResponse := route snapshots;
     Unmarshal_HostResponse := route status;
     map_range := fun _ m => map_to_list m;
     map_range_perm := fun _ m => reflexivity (map_to_list m) |}.

Definition pbs : Exporter :=
  NewExporter "http://pbs:8007" "root@pam" "secret" "exporter".

Definition tank : Datastore :=
  {| Avail := 70; Store := "tank"; Total := 100; Used := 30; Namespace := "" |}.

Definition tank_host : HostData :=
  {| CPU := 0.25%float;
     Mem := {| Free := 6; Usage_Total := 16; Usage_Used := 10 |};
     Swap := {| Free := 2; Usage_Total := 2; Usage_Used := 0 |};
     Disk := {| Disk_Avail := 40; Disk_Total := 50; Disk_Used := 10 |};
     Uptime := 3600;
     Wait := 0.5%float |}.

Definition ok (body : string) : Response :=
  {| StatusCode := 200; Body := Some body |}.

Definition decoders_usage : list (string * DatastoreResponse) :=
  [ ("usage", {| DatastoreResponse_Data := [tank] |}) ].
Definition decoders_namespaces : list (string * NamespaceResponse) :=
  [ ("namespaces",
     {| NamespaceResponse_Data :=
          [ {| ns := "" |}; {| ns := "prod" |}; {| ns := "test" |} ] |}) ].
Definition decoders_snapshots : list (string * SnapshotResponse) :=
  [ ("prod",
     {| SnapshotResponse_Data :=
          [ {| BackupID := "100" |}; {| BackupID := "100" |};
            {| BackupID := "101" |} ] |});
    ("test", {| SnapshotResponse_Data := [] |}) ].
Definition decoders_status : list (string * HostResponse) :=
  [ ("status", {| HostResponse_Data := tank_host |}) ].

Definition serving (routes : list (string * Response)) : Env :=
  backend routes decoders_usage decoders_namespaces decoders_snapshots
    decoders_status.

(** Every call answers. *)
Definition healthy : Env :=
  serving
    [ (usage_url pbs, ok "usage");
      (namespace_url pbs "tank", ok "namespaces");
      (snapshots_url pbs "tank" "prod", ok "prod");
      (snapshots_url pbs "tank" "test", ok "test");
      (node_url pbs, ok "status") ].

(** The namespace listing of the datastore answers 500. *)
Definition namespaces_down : Env :=
  serving
    [ (usage_url pbs, ok "usage");
      (namespace_url pbs "tank",
       {| StatusCode := 500; Body := Some "internal error" |});
      (node_url pbs, ok "status") ].

(** The snapshot listing of the first named namespace answers 500. *)
Definition snapshots_down : Env :=
  serving
    [ (usage_url pbs, ok "usage");
      (namespace_url pbs "tank", ok "namespaces");
      (snapshots_url pbs "tank" "prod",
       {| StatusCode := 500; Body := Some "internal error" |});
      (snapshots_url pbs "tank" "test", ok "test");
      (node_url pbs, ok "status") ].

(** The usage listing answers 500. *)
Definition usage_down : Env :=
  serving
    [ (usage_url pbs,
       {| StatusCode := 500; Body := Some "internal error" |});
      (namespace_url pbs "tank", ok "namespaces");
      (snapshots_url pbs "tank" "prod", ok "prod");
      (snapshots_url pbs "tank" "test", ok "test");
      (node_url pbs, ok "status") ].

(** The usage listing answers 500 and the connection breaks while the body
    is read. *)
Definition usage_cut : Env :=
  serving
    [ (usage_url pbs, {| StatusCode := 500; Body := None |});
      (node_url pbs, ok "status") ].

(** ** More vocabulary: what is sent, what is logged *)

(** A sample the registry accepts: a gauge, under one of the descriptors of
    [Describe], with as many label values as the descriptor has labels. *)
Definition described (m : Metric) : Prop :=
  desc m ∈ Describe
  /\ valueType m = GaugeValue
  /\ length (labelValues m) = length (variableLabels (desc m)).

(** A sample of the namespace collector. *)
Definition snapshot_sample (m : Metric) : Prop :=
  desc m = snapshot_count \/ desc m = snapshot_vm_count.

(** The samples of one datastore in a scrape: its three gauges, then
    samples of the namespace collector only. *)
Definition datastore_block (datastore : Datastore) (l : list Metric) : Prop :=
  exists d, l = datastore_samples datastore ++ d /\ Forall snapshot_sample d.

(** The samples of a list that go under the metric name [name]. *)
Definition named_samples (name : string) (l : list Metric) : list Metric :=
  filter (fun m => fqName (desc m) = name) l.

(** Two states with the same channel and the same requests: they differ in
    the log at most. *)
Definition same_effects (s s' : State) : Prop :=
  ch s = ch s' /\ reqs s = reqs s'.

(** [agree m1 m2]: from states with the same effects, [m1] and [m2] return
    the same and leave states with the same effects. *)
Definition agree {A} (m1 m2 : M A) : Prop :=
  forall s s', same_effects s s' ->
    (m1 s).1 = (m2 s').1 /\ same_effects (m1 s).2 (m2 s').2.

(** [logging P m]: what [m] adds to the log satisfies [P]. *)
Definition logging {A} (P : list logline -> Prop) (m : M A) : Prop :=
  forall s, exists l, logs (m s).2 = logs s ++ l /\ P l.

(** The call to [url], made after [n] earlier requests, gets no answer. *)
Definition unanswered (env : Env) (n : nat) (e : Exporter) (url : string)
  : Prop :=
  NewRequest_accepts env "GET" url = true
  /\ Do env n (api_request e url) = None.

(** The call to [url], made after [n] earlier requests, is answered with
    the status 200 and the body [body], which does not decode. *)
Definition undecodable {A} (env : Env) (n : nat) (e : Exporter) (url : string)
    (decode : string -> option A) (body : string) : Prop :=
  NewRequest_accepts env "GET" url = true
  /\ exists resp,
       Do env n (api_request e url) = Some resp
       /\ Body resp = Some body
       /\ StatusCode resp = 200
       /\ decode body = None.

(** The strings [strconv.ParseBool] reads as true. *)
Definition true_strings : list string :=
  ["1"; "t"; "T"; "true"; "TRUE"; "True"].

(** The strings [strconv.ParseBool] reads as false. *)
Definition false_strings : list string :=
  ["0"; "f"; "F"; "false"; "FALSE"; "False"].

(** ** More test backends *)

(** No call gets an answer. *)
Definition unreachable_server : Env := serving [].

(** The usage listing answers 200 with a body that does not decode. *)
Definition garbled : Env :=
  serving [ (usage_url pbs, ok "garbage"); (node_url pbs, ok "status") ].

(** [http.NewRequest] refuses every URL. *)
Definition strict_urls : Env :=
  {| NewRequest_accepts := fun _ _ => false;
     Do := Do healthy;
     Unmarshal_DatastoreResponse := Unmarshal_DatastoreResponse healthy;
     Unmarshal_NamespaceResponse := Unmarshal_NamespaceResponse healthy;
     Unmarshal_SnapshotResponse := Unmarshal_SnapshotResponse healthy;
     Unmarshal_HostResponse := Unmarshal_HostResponse healthy;
     map_range := map_range healthy;
     map_range_perm := map_range_perm healthy |}.

Definition pool : Datastore :=
  {| Avail := 5; Store := "pool"; Total := 20; Used := 15; Namespace := "" |}.

Definition root_only : NamespaceResponse :=
  {| NamespaceResponse_Data := [ {| ns := "" |} ] |}.

(** Two datastores, each with the root namespace only. *)
Definition two_datastores : Env :=
  backend
    [ (usage_url pbs, ok "usage");
      (namespace_url pbs "tank", ok "root");
      (namespace_url pbs "pool", ok "root");
      (node_url pbs, ok "status") ]
    [ ("usage", {| DatastoreResponse_Data := [tank; pool] |}) ]
    [ ("root", root_only) ]
    []
    decoders_status.

(** No datastore. *)
Definition no_datastores : Env :=
  backend
    [ (usage_url pbs, ok "usage"); (node_url pbs, ok "status") ]
    [ ("usage", {| DatastoreResponse_Data := [] |}) ]
    [] [] decoders_status.

(** What [main] serves with under the default flags when the environment
    sets [PBS_INSECURE] to [true] and the timeout parses to five seconds. *)
Definition insecure_server : Main.Server :=
  {| Main.exporter :=
       NewExporter "http://localhost:8007" "root@pam" "" "pbs-exporter";
     Main.InsecureSkipVerify := true;
     Main.Timeout := 5000000000;
     Main.flags := Main.set_insecure "true" Main.defaults |}.

(** ** The samples of a failing scrape *)

(** A sample of the datastore collector or of the namespace collector:
    none of the host, and not [up]. *)
Definition storage_sample (m : Metric) : Prop :=
  desc m ∈ [available; size; used; snapshot_count; snapshot_vm_count].

(** ** The order of the calls *)

(** The calls of a scrape written down on their own, without samples and
    without log: which requests go out, in which order, and what the scrape
    returns, as a function of what the backend answers.  The scrape is
    compared with this order below. *)

(** One call, made after [n] earlier requests.  When it answers, its
    request is followed by the calls [next] makes with the decoded answer;
    when it does not, its error is the result and its request, if the URL
    was accepted, is the last one. *)
Definition call {A} (env : Env) (n : nat) (dashes : string) (e : Exporter)
    (url : string) (decode : string -> option A)
    (next : A -> Result unit * list Request) : Result unit * list Request :=
  match fetch_outcome env n dashes e url decode with
  | Ok a => ((next a).1, api_request e url :: (next a).2)
  | Err err => (Err err, fetch_requests env e url)
  end.

(** One run of calls after another: [next], told how many requests [first]
    issued, is made only when [first] returned [nil]. *)
Definition and_then (first : Result unit * list Request)
    (next : nat -> Result unit * list Request)
  : Result unit * list Request :=
  match first.1 with
  | Ok _ => ((next (length first.2)).1,
             first.2 ++ (next (length first.2)).2)
  | Err err => (Err err, first.2)
  end.

(** The snapshot listings of [names], one after the other in the order of
    [names], the first of them after [n] earlier requests. *)
Fixpoint snapshot_calls (env : Env) (e : Exporter) (datastore : string)
    (n : nat) (names : list string) : Result unit * list Request :=
  match names with
  | [] => (Ok tt, [])
  | name :: rest =>
      call env n "----" e (snapshots_url e datastore name)
        (Unmarshal_SnapshotResponse env)
        (fun _ => snapshot_calls env e datastore (S n) rest)
  end.

(** The namespace listing of a datastore, then the snapshot listings of the
    non-empty names of that listing. *)
Definition datastore_calls (env : Env) (e : Exporter) (n : nat)
    (datastore : string) : Result unit * list Request :=
  call env n "--" e (namespace_url e datastore)
    (Unmarshal_NamespaceResponse env)
    (fun response =>
       snapshot_calls env e datastore (S n)
         (named (NamespaceResponse_Data response))).

(** The calls of [datastores], datastore after datastore in the order of
    the list. *)
Fixpoint datastores_calls (env : Env) (e : Exporter) (n : nat)
    (datastores : list string) : Result unit * list Request :=
  match datastores with
  | [] => (Ok tt, [])
  | datastore :: rest =>
      and_then (datastore_calls env e n datastore)
        (fun issued => datastores_calls env e (n + issued) rest)
  end.

(** The calls of a scrape: the usage listing, the calls of the datastores
    of that listing, the node status. *)
Definition scrape_calls (env : Env) (e : Exporter) (n : nat)
  : Result unit * list Request :=
  call env n "" e (usage_url e) (Unmarshal_DatastoreResponse env)
    (fun usage =>
       and_then
         (datastores_calls env e (S n)
            (Store <$> DatastoreResponse_Data usage))
         (fun issued =>
            call env (S n + issued) "" e (node_url e)
              (Unmarshal_HostResponse env) (fun _ => (Ok tt, [])))).

(** [listed env e n datastores visited]: [visited] pairs each datastore of
    [datastores], in the order of the list, with the non-empty names of the
    namespace listing the backend answers for it, the first namespace
    listing being asked for after [n] earlier requests and the next one
    after the snapshot listings of those names. *)
Fixpoint listed (env : Env) (e : Exporter) (n : nat)
    (datastores : list string) (visited : list (string * list string))
  : Prop :=
  match datastores, visited with
  | [], [] => True
  | datastore :: datastores, v :: visited =>
      v.1 = datastore
      /\ (exists response,
            answers env n e (namespace_url e datastore)
              (Unmarshal_NamespaceResponse env) response
            /\ v.2 = named (NamespaceResponse_Data response))
      /\ listed env e (S n + length v.2) datastores visited
  | _, _ => False
  end.

(** [follows m s calls]: from [s], [m] returns what [calls] returns and
    issues the requests of [calls], in their order, and no other. *)
Definition follows {A} (m : M A) (s : State)
    (calls : Result A * list Request) : Prop :=
  (m s).1 = calls.1 /\ reqs (m s).2 = reqs s ++ calls.2.

(** No datastore, and the node status answers 500. *)
Definition no_datastores_host_down : Env :=
  backend
    [ (usage_url pbs, ok "usage");
      (node_url pbs, {| StatusCode := 500; Body := Some "internal error" |}) ]
    [ ("usage", {| DatastoreResponse_Data := [] |}) ]
    [] [] decoders_status.

(** * Reasoning about scrapes *)

(** ** The monad *)

Lemma bind_Ok {A B} (m : M A) (k : A -> M B) s a s' :
  m s = (Ok a, s') -> bind m k s = k a s'.
Proof. unfold bind. by intros ->. Qed.

Lemma bind_Err {A B} (m : M A) (k : A -> M B) s e s' :
  m s = (Err e, s') -> bind m k s = (Err e, s').
Proof. unfold bind. by intros ->. Qed.

Section FetchLemmas.

Context (env : Env) (loglevel : string).

Lemma fetch_run {A} dashes e url (decode : string -> option A) s :
  exists s',
    fetch env loglevel dashes e url decode s
    = (fetch_outcome env (length (reqs s)) dashes e url decode, s')
    /\ ch s' = ch s
    /\ reqs s' = reqs s ++ fetch_requests env e url.
Proof.
  unfold fetch, fetch_outcome, fetch_requests, http_NewRequest.
  destruct (NewRequest_accepts env "GET" url); cycle 1.
  { eexists. split; [reflexivity|]. simpl. by rewrite app_nil_r. }
  unfold when, debug, bind, client_Do, log, ret, io_ReadAll, json_Unmarshal, fail.
  change (Header_Set "Authorization" (authorizationHeader e)
            {| Method := "GET"; URL := url; Header := ∅ |})
    with (api_request e url).
  destruct (bool_decide (loglevel = "debug")); simpl;
    destruct (Do env _ _) as [resp|]; simpl; eauto;
    destruct (Body resp) as [body|]; simpl; eauto;
    destruct (bool_decide (StatusCode resp ≠ 200)); simpl; eauto;
    destruct (decode body); simpl; eauto.
Qed.

Ltac fetch_cases :=
  unfold fetch, http_NewRequest, when, debug, bind, client_Do, log, ret,
    io_ReadAll, json_Unmarshal, fail;
  repeat match goal with
    | |- context [NewRequest_accepts ?v ?m ?u] =>
        destruct (NewRequest_accepts v m u); simpl; [|reflexivity]
    | |- context [bool_decide (?l = "debug")] =>
        destruct (bool_decide (l = "debug")); simpl
    | |- context [Do ?v ?n ?r] =>
        destruct (Do v n r) as [?resp|]; simpl; [|reflexivity]
    | |- context [Body ?r] =>
        destruct (Body r) as [?body|]; simpl; [|reflexivity]
    | |- context [bool_decide (StatusCode ?r ≠ 200)] =>
        destruct (bool_decide (StatusCode r ≠ 200)); simpl; [reflexivity|]
    end;
  try reflexivity.

Lemma getNamespaceMetric_fetch e datastore namespace s :
  getNamespaceMetric env loglevel e datastore namespace s
  = (when (debug loglevel)
       (log (Printf "DEBUG: ----Namespace %s" [AString namespace])) ;;
     response <- fetch env loglevel "----" e
                   (endpoint e +:+ datastoreApi +:+ "/" +:+ datastore
                    +:+ "/snapshots?ns=" +:+ namespace)
                   (Unmarshal_SnapshotResponse env) ;;
     send (MustNewConstMetric snapshot_count GaugeValue
             (float64_of_int (len (SnapshotResponse_Data response)))
             [namespace]) ;;
     entries <- range_map env (count_vms (SnapshotResponse_Data response)) ;;
     for_range entries (fun '(vmName, count) =>
       send (MustNewConstMetric snapshot_vm_count GaugeValue
               (float64_of_int count) [namespace; vmName]))) s.
Proof.
  unfold getNamespaceMetric. fetch_cases;
    destruct (Unmarshal_SnapshotResponse env body); reflexivity.
Qed.

Lemma getDatastoreMetric_fetch e datastore s :
  getDatastoreMetric env loglevel e datastore s
  = (when (debug loglevel)
       (log (Printf "DEBUG: --Store %s" [AString (Store datastore)]) ;;
        log (Printf "DEBUG: --Avail %d" [AInt (Avail datastore)]) ;;
        log (Printf "DEBUG: --Total %d" [AInt (Total datastore)]) ;;
        log (Printf "DEBUG: --Used %d" [AInt (Used datastore)])) ;;
     send (MustNewConstMetric available GaugeValue
             (float64_of_int (Avail datastore)) []) ;;
     send (MustNewConstMetric size GaugeValue
             (float64_of_int (Total datastore)) []) ;;
     send (MustNewConstMetric used GaugeValue
             (float64_of_int (Used datastore)) []) ;;
     response <- fetch env loglevel "--" e
                   (endpoint e +:+ datastoreApi +:+ "/" +:+ Store datastore
                    +:+ "/namespace")
                   (Unmarshal_NamespaceResponse env) ;;
     for_range (NamespaceResponse_Data response) (fun namespace =>
       if bool_decide (ns namespace = "") then ret tt
       else getNamespaceMetric env loglevel e (Store datastore)
              (ns namespace))) s.
Proof.
  unfold getDatastoreMetric. unfold send. fetch_cases;
    destruct (Unmarshal_NamespaceResponse env body); reflexivity.
Qed.

Lemma getNodeMetrics_fetch e s :
  getNodeMetrics env loglevel e s
  = (response <- fetch env loglevel "" e (endpoint e +:+ nodeApi +:+ "/localhost/status")
                   (Unmarshal_HostResponse env) ;;
     for_range (host_samples (HostResponse_Data response)) send) s.
Proof.
  unfold getNodeMetrics. fetch_cases;
    destruct (Unmarshal_HostResponse env body); reflexivity.
Qed.

Lemma collectFromAPI_fetch e s :
  collectFromAPI env loglevel e s
  = (response <- fetch env loglevel "" e (endpoint e +:+ datastoreUsageApi)
                   (Unmarshal_DatastoreResponse env) ;;
     for_range (DatastoreResponse_Data response) (fun datastore =>
       getDatastoreMetric env loglevel e datastore) ;;
     getNodeMetrics env loglevel e) s.
Proof.
  unfold collectFromAPI. fetch_cases;
    destruct (Unmarshal_DatastoreResponse env body); reflexivity.
Qed.

End FetchLemmas.

Section Keeps.

Context (Pm : Metric -> Prop) (Pr : Request -> Prop).

Lemma keeps_ext {A} (m m' : M A) :
  (forall s, m s = m' s) -> keeps Pm Pr m' -> keeps Pm Pr m.
Proof. intros E H s. rewrite E. apply H. Qed.

Lemma keeps_pure {A} (m : M A) :
  (forall s, (m s).2 = s) -> keeps Pm Pr m.
Proof.
  intros E s. exists [], []. rewrite E, !app_nil_r. auto.
Qed.

Lemma keeps_ret {A} (a : A) : keeps Pm Pr (ret a).
Proof. by apply keeps_pure. Qed.

Lemma keeps_fail {A} (e : error) : keeps Pm Pr (@fail A e).
Proof. by apply keeps_pure. Qed.

Lemma keeps_log l : keeps Pm Pr (log l).
Proof. intros s. exists [], []. simpl. rewrite !app_nil_r. auto. Qed.

Lemma keeps_send m : Pm m -> keeps Pm Pr (send m).
Proof.
  intros H s. exists [m], []. simpl. rewrite app_nil_r. auto.
Qed.

Lemma keeps_bind {A B} (m : M A) (k : A -> M B) :
  keeps Pm Pr m -> (forall a, keeps Pm Pr (k a)) -> keeps Pm Pr (bind m k).
Proof.
  intros Hm Hk s. destruct (Hm s) as (d1 & q1 & E1 & E2 & F1 & F2).
  unfold bind. destruct (m s) as [[a|e] s1]; simpl in *.
  - destruct (Hk a s1) as (d2 & q2 & E3 & E4 & F3 & F4).
    exists (d1 ++ d2), (q1 ++ q2).
    rewrite E3, E4, E1, E2, !app_assoc, !Forall_app. auto.
  - eauto 8.
Qed.

Lemma keeps_when c m : keeps Pm Pr m -> keeps Pm Pr (when c m).
Proof. destruct c; [done|]. intros _. apply keeps_ret. Qed.

Lemma keeps_for_range {A} (l : list A) (body : A -> M unit) :
  (forall x, keeps Pm Pr (body x)) -> keeps Pm Pr (for_range l body).
Proof.
  intros H. induction l; simpl; [apply keeps_ret|].
  apply keeps_bind; auto.
Qed.

Lemma keeps_sends (l : list Metric) :
  Forall Pm l -> keeps Pm Pr (for_range l send).
Proof.
  induction 1; simpl; [apply keeps_ret|].
  apply keeps_bind; [by apply keeps_send|done].
Qed.

Lemma keeps_range_map env m : keeps Pm Pr (range_map env m).
Proof. by apply keeps_pure. Qed.

Lemma keeps_fetch {A} env loglevel dashes e url (decode : string -> option A) :
  Pr (api_request e url) -> keeps Pm Pr (fetch env loglevel dashes e url decode).
Proof.
  intros H s.
  destruct (fetch_run env loglevel dashes e url decode s) as (s' & E & E1 & E2).
  rewrite E. simpl. exists [], (fetch_requests env e url).
  rewrite E1, E2, app_nil_r. repeat split; auto.
  unfold fetch_requests. destruct (NewRequest_accepts _ _ _); auto.
Qed.

End Keeps.

Lemma api_request_exporter e url : exporter_request e (api_request e url).
Proof. by split. Qed.

Section Invariant.

Context (env : Env) (loglevel : string) (e : Exporter).

Local Abbreviation keeps' := (keeps collector_sample (exporter_request e)).

Local Ltac keeps_step :=
  first
    [ apply keeps_ret | apply keeps_fail | apply keeps_log
    | apply keeps_range_map
    | apply keeps_fetch; apply api_request_exporter
    | apply keeps_send; by repeat split
    | apply keeps_when | apply keeps_for_range; intros
    | apply keeps_bind; [|intros] ].

Lemma getNamespaceMetric_keeps datastore namespace :
  keeps' (getNamespaceMetric env loglevel e datastore namespace).
Proof.
  eapply keeps_ext; [apply getNamespaceMetric_fetch|].
  repeat keeps_step. destruct x. keeps_step.
Qed.

Lemma getDatastoreMetric_keeps datastore :
  keeps' (getDatastoreMetric env loglevel e datastore).
Proof.
  eapply keeps_ext; [apply getDatastoreMetric_fetch|].
  repeat keeps_step.
  case_bool_decide; [keeps_step|apply getNamespaceMetric_keeps].
Qed.

Lemma getNodeMetrics_keeps : keeps' (getNodeMetrics env loglevel e).
Proof.
  eapply keeps_ext; [apply getNodeMetrics_fetch|].
  keeps_step; [keeps_step|]. apply keeps_sends.
  repeat constructor; by repeat split.
Qed.

Lemma collectFromAPI_keeps : keeps' (collectFromAPI env loglevel e).
Proof.
  eapply keeps_ext; [apply collectFromAPI_fetch|].
  repeat first [ apply getDatastoreMetric_keeps
               | apply getNodeMetrics_keeps | keeps_step ].
Qed.

End Invariant.

Lemma runs_ext {A} (m m' : M A) s r dch dreq :
  m s = m' s -> runs m' s r dch dreq -> runs m s r dch dreq.
Proof. unfold runs. by intros ->. Qed.

Lemma runs_ret {A} (a : A) s : runs (ret a) s (Ok a) [] [].
Proof. exists s. by rewrite !app_nil_r. Qed.

Lemma runs_send m s : runs (send m) s (Ok tt) [m] [].
Proof. eexists. split; [reflexivity|]. simpl. by rewrite app_nil_r. Qed.

Lemma runs_silent (m : M unit) s :
  (exists l, m s = (Ok tt, {| ch := ch s; reqs := reqs s; logs := l |})) ->
  runs m s (Ok tt) [] [].
Proof.
  intros [l E]. eexists. split; [exact E|]. simpl. by rewrite !app_nil_r.
Qed.

Lemma runs_bind_Ok {A B} (m : M A) (k : A -> M B) s a r d1 q1 d2 q2 :
  runs m s (Ok a) d1 q1 ->
  (forall s1, ch s1 = ch s ++ d1 -> reqs s1 = reqs s ++ q1 ->
              runs (k a) s1 r d2 q2) ->
  runs (bind m k) s r (d1 ++ d2) (q1 ++ q2).
Proof.
  intros (s1 & E & C & R) H. destruct (H s1 C R) as (s2 & E2 & C2 & R2).
  exists s2. rewrite (bind_Ok _ _ _ _ _ E), C2, R2, C, R, !app_assoc. done.
Qed.

Lemma runs_bind_Err {A B} (m : M A) (k : A -> M B) s e d q :
  runs m s (Err e) d q -> runs (bind m k) s (Err e) d q.
Proof.
  intros (s1 & E & C & R). exists s1. by rewrite (bind_Err _ _ _ _ _ E).
Qed.

Lemma runs_sends (l : list Metric) s : runs (for_range l send) s (Ok tt) l [].
Proof.
  revert s. induction l as [|m l IH]; intros s; simpl; [apply runs_ret|].
  apply (runs_bind_Ok _ _ _ tt _ [m] [] l []); [apply runs_send|auto].
Qed.

Lemma runs_fetch {A} env loglevel dashes e url (decode : string -> option A) s :
  runs (fetch env loglevel dashes e url decode) s
    (fetch_outcome env (length (reqs s)) dashes e url decode)
    [] (fetch_requests env e url).
Proof.
  destruct (fetch_run env loglevel dashes e url decode s) as (s' & E & C & R).
  exists s'. by rewrite app_nil_r.
Qed.

Lemma answers_outcome {A} env n dashes e url (decode : string -> option A) a :
  answers env n e url decode a
  <-> fetch_outcome env n dashes e url decode = Ok a.
Proof.
  unfold answers, fetch_outcome. split.
  - intros (-> & resp & body & -> & -> & St & ->).
    by rewrite bool_decide_eq_false_2 by (by intros []).
  - destruct (NewRequest_accepts _ _ _); [|done].
    destruct (Do _ _ _) as [resp|]; [|done].
    destruct (Body resp) as [body|] eqn:B; [|done].
    case_bool_decide as St; [done|].
    destruct (decode body) eqn:D; [|done].
    intros [= ->]. split; [done|]. exists resp, body.
    repeat split; auto; by apply dec_stable.
Qed.

Lemma answers_requests {A} env n e url (decode : string -> option A) a :
  answers env n e url decode a -> fetch_requests env e url = [api_request e url].
Proof. intros [H _]. unfold fetch_requests. by rewrite H. Qed.

(** ** Counting snapshots per backup source *)

Lemma int_wrap_small z : int_min <= z <= int_max -> int_wrap z = z.
Proof.
  unfold int_min, int_max, int_wrap. intros H.
  rewrite Z.mod_small; lia.
Qed.

Lemma multiplicity_snoc id data x :
  multiplicity id (data ++ [x])
  = (multiplicity id data + if decide (BackupID x = id) then 1 else 0)%nat.
Proof.
  unfold multiplicity. rewrite filter_app, length_app.
  rewrite filter_cons, filter_nil. by case_decide.
Qed.

Lemma multiplicity_le id data : (multiplicity id data <= length data)%nat.
Proof. apply length_filter. Qed.

Lemma multiplicity_pos id data :
  (0 < multiplicity id data)%nat <-> id ∈ BackupID <$> data.
Proof.
  unfold multiplicity. rewrite list_elem_of_fmap. split.
  - intros H. destruct (filter _ data) as [|x l] eqn:E; [simpl in H; lia|].
    assert (x ∈ filter (fun snapshot => BackupID snapshot = id) data) as Hx
      by (rewrite E; left).
    apply list_elem_of_filter in Hx as [<- Hx]. eauto.
  - intros (x & -> & Hx).
    assert (x ∈ filter (fun snapshot => BackupID snapshot = BackupID x) data)
      as Hf by (by apply list_elem_of_filter).
    destruct (filter _ data); [by apply elem_of_nil in Hf|simpl; lia].
Qed.

Lemma count_vms_snoc data x :
  count_vms (data ++ [x])
  = <[BackupID x := int_wrap (default 0 (count_vms data !! BackupID x) + 1)]>
      (count_vms data).
Proof. unfold count_vms. by rewrite foldl_snoc. Qed.

(** As long as the listing is no longer than an [int] can count, the map
    built by the loop holds, for each identifier that occurs, the number
    of its occurrences, and nothing else. *)
Lemma count_vms_lookup data id :
  len data <= int_max ->
  count_vms data !! id
  = if decide (multiplicity id data = 0%nat) then None
    else Some (Z.of_nat (multiplicity id data)).
Proof.
  unfold len, int_max. induction data as [|x data IH] using rev_ind; intros Hlen.
  { reflexivity. }
  rewrite length_app, Nat2Z.inj_add in Hlen.
  change (Z.of_nat (length [x])) with 1 in Hlen.
  rewrite count_vms_snoc, multiplicity_snoc.
  pose proof (multiplicity_le id data) as Hle.
  destruct (decide (BackupID x = id)) as [->|Hne].
  - rewrite lookup_insert_eq, IH by lia.
    destruct (decide (multiplicity id data = 0%nat)) as [Hz|Hz];
      rewrite decide_False by lia; simpl; f_equal.
    + rewrite Hz. by rewrite int_wrap_small by (unfold int_min, int_max; lia).
    + rewrite int_wrap_small by (unfold int_min, int_max; lia). lia.
  - rewrite lookup_insert_ne, IH by (done || lia).
    by rewrite Nat.add_0_r.
Qed.

(** The pairs of the map are the distinct identifiers with their
    multiplicities, whatever list [ids] enumerates the distinct
    identifiers. *)
Lemma count_vms_to_list data ids :
  len data <= int_max ->
  NoDup ids -> (forall id, id ∈ ids <-> id ∈ BackupID <$> data) ->
  map_to_list (count_vms data)
  ≡ₚ (fun id => (id, Z.of_nat (multiplicity id data))) <$> ids.
Proof.
  intros Hlen Hnd Hids. apply NoDup_Permutation.
  - apply NoDup_map_to_list.
  - apply NoDup_fmap_2; [|done]. by intros ?? [= ->].
  - intros [id c]. rewrite elem_of_map_to_list, count_vms_lookup by done.
    rewrite list_elem_of_fmap. split.
    + case_decide as Hz; [done|]. intros [= <-]. exists id. split; [done|].
      apply Hids, multiplicity_pos. lia.
    + intros (id' & [= -> ->] & Hin).
      apply Hids, multiplicity_pos in Hin. rewrite decide_False by lia. done.
Qed.

(** Summed over the distinct identifiers, the multiplicities give the
    length of the listing. *)
Lemma sum_multiplicity data ids :
  NoDup ids -> (forall id, id ∈ BackupID <$> data -> id ∈ ids) ->
  sum_list_with (fun id => multiplicity id data) ids = length data.
Proof.
  intros Hnd. induction data as [|x data IH] using rev_ind; intros Hids.
  { clear. induction ids; simpl; [done|]. by rewrite IHids. }
  rewrite length_app. simpl. rewrite <- IH; cycle 1.
  { intros id Hid. apply Hids. rewrite fmap_app. apply elem_of_app. by left. }
  assert (BackupID x ∈ ids) as Hx.
  { apply Hids. rewrite fmap_app. apply elem_of_app. right. simpl. left. }
  clear IH Hids.
  induction Hnd as [|i ids Hi Hnd IH]; [by apply elem_of_nil in Hx|].
  simpl. rewrite !multiplicity_snoc.
  destruct (decide (BackupID x = i)) as [E|Hne].
  - subst i.
    assert (sum_list_with (fun id => multiplicity id (data ++ [x])) ids
            = sum_list_with (fun id => multiplicity id data) ids) as ->; [|lia].
    clear IH Hx Hnd. induction ids as [|j ids IH]; [done|]. simpl.
    rewrite multiplicity_snoc, decide_False by (intros <-; apply Hi; left).
    rewrite IH by (intros ?; apply Hi; by right). lia.
  - apply elem_of_cons in Hx as [?|Hx]; [done|]. rewrite (IH Hx). lia.
Qed.

(** ** The namespace collector, step by step *)

Lemma runs_when_silent c (m : M unit) s :
  (exists l, m s = (Ok tt, {| ch := ch s; reqs := reqs s; logs := l |})) ->
  runs (when c m) s (Ok tt) [] [].
Proof.
  intros H. apply runs_silent. destruct c; [done|].
  exists (logs s). by destruct s.
Qed.

Lemma runs_for_range_send {A} (body : A -> M unit) (f : A -> Metric) l s :
  (forall x, body x = send (f x)) ->
  runs (for_range l body) s (Ok tt) (f <$> l) [].
Proof.
  intros H. revert s. induction l as [|x l IH]; intros s; simpl.
  { apply runs_ret. }
  rewrite H.
  apply (runs_bind_Ok _ _ _ tt _ [f x] [] (f <$> l) []); [apply runs_send|auto].
Qed.

Lemma runs_bind_Ok_eq {A B} (m : M A) (k : A -> M B) s a r d1 q1 d2 q2 d q :
  runs m s (Ok a) d1 q1 ->
  (forall s1, ch s1 = ch s ++ d1 -> reqs s1 = reqs s ++ q1 ->
              runs (k a) s1 r d2 q2) ->
  d = d1 ++ d2 -> q = q1 ++ q2 ->
  runs (bind m k) s r d q.
Proof. intros ?? -> ->. by eapply runs_bind_Ok. Qed.

Section Namespace.

Context (env : Env) (loglevel : string) (e : Exporter).
Context (datastore namespace : string).

Lemma getNamespaceMetric_runs s :
  let o := fetch_outcome env (length (reqs s)) "----" e
             (snapshots_url e datastore namespace)
             (Unmarshal_SnapshotResponse env) in
  runs (getNamespaceMetric env loglevel e datastore namespace) s
    (match o with Ok _ => Ok tt | Err err => Err err end)
    (match o with
     | Ok response =>
         namespace_samples env (length (reqs s) + 1) namespace
           (SnapshotResponse_Data response)
     | Err _ => []
     end)
    (fetch_requests env e (snapshots_url e datastore namespace)).
Proof.
  intros o. eapply runs_ext; [apply getNamespaceMetric_fetch|].
  eapply (runs_bind_Ok _ _ _ tt _ [] []).
  { apply runs_when_silent. by eexists. }
  intros s1 _ R1. rewrite app_nil_r in R1.
  pose proof (runs_fetch env loglevel "----" e
                (snapshots_url e datastore namespace)
                (Unmarshal_SnapshotResponse env) s1) as F.
  rewrite R1 in F. fold o in F.
  destruct o as [response|err] eqn:O; [|by apply runs_bind_Err].
  eapply (runs_bind_Ok_eq _ _ _ _ _ [] _ _ []);
    [exact F| |reflexivity|by rewrite app_nil_r].
  intros s2 _ R2.
  eapply (runs_bind_Ok _ _ _ tt _ [_] [] _ []); [apply runs_send|].
  intros s3 _ R3. rewrite app_nil_r in R3.
  eapply (runs_bind_Ok _ _ _ _ _ [] [] _ []).
  { eexists. split; [reflexivity|]. by rewrite !app_nil_r. }
  intros s4 _ _.
  assert (length (reqs s3) = (length (reqs s) + 1)%nat) as ->.
  { rewrite R3, R2, R1. unfold fetch_requests. unfold o, fetch_outcome in O.
    destruct (NewRequest_accepts _ _ _); [|done]. by rewrite length_app. }
  apply runs_for_range_send. by intros [].
Qed.

End Namespace.

(** ** Sums and multiplicities *)

Lemma Z_sum_Permutation l k : l ≡ₚ k -> Z_sum l = Z_sum k.
Proof. unfold Z_sum. induction 1; cbn [foldr]; lia. Qed.

Lemma Z_sum_of_nat {A} (f : A -> nat) (l : list A) :
  Z_sum ((fun x => Z.of_nat (f x)) <$> l) = Z.of_nat (sum_list_with f l).
Proof.
  unfold Z_sum. induction l as [|x l IH]; [done|].
  cbn [fmap list_fmap foldr sum_list_with]. rewrite IH. lia.
Qed.

Lemma multiplicity_fmap id data :
  multiplicity id data
  = length (filter (fun x => x = id) (BackupID <$> data)).
Proof.
  unfold multiplicity. induction data as [|x data IH]; [done|].
  rewrite fmap_cons, !filter_cons. repeat case_decide; simpl; congruence.
Qed.

Lemma len_fmap {A B} (f : A -> B) (l : list A) : len (f <$> l) = len l.
Proof. unfold len. by rewrite length_fmap. Qed.

(** The pairs the collector turns into samples, in the order of the loop:
    the distinct identifiers, each with its multiplicity. *)
Lemma map_range_count_vms env n data ids :
  len data <= int_max ->
  NoDup ids -> (forall id, id ∈ ids <-> id ∈ BackupID <$> data) ->
  map_range env n (count_vms data)
  ≡ₚ (fun id => (id, Z.of_nat (multiplicity id data))) <$> ids.
Proof.
  intros. rewrite map_range_perm. by apply count_vms_to_list.
Qed.

(** ** The loops over namespaces and datastores *)

Lemma runs_bind_at {A B} (m : M A) (k : A -> M B) s a s1 r d1 q1 d2 q2 :
  m s = (Ok a, s1) -> ch s1 = ch s ++ d1 -> reqs s1 = reqs s ++ q1 ->
  runs (k a) s1 r d2 q2 ->
  runs (bind m k) s r (d1 ++ d2) (q1 ++ q2).
Proof.
  intros E C R (s3 & E3 & C3 & R3). exists s3.
  by rewrite (bind_Ok _ _ _ _ _ E), C3, R3, C, R, !app_assoc.
Qed.

Section Loops.

Context (env : Env) (loglevel : string) (e : Exporter).

Lemma namespace_loop_runs datastore names s :
  exists r dch dreq,
    runs (for_range names (getNamespaceMetric env loglevel e datastore)) s
      r dch dreq
    /\ visits env e datastore (length (reqs s)) names r dreq.
Proof.
  revert s. induction names as [|name names IH]; intros s.
  { exists (Ok tt), [], []. split; [apply runs_ret|]. by left. }
  pose proof (getNamespaceMetric_runs env loglevel e datastore name s) as H.
  cbv zeta in H.
  destruct (fetch_outcome _ _ _ _ _ _) as [response|err] eqn:O.
  - apply (answers_outcome _ _ "----") in O as Hans.
    rewrite (answers_requests _ _ _ _ _ _ Hans) in H.
    destruct H as (s1 & E & C & R).
    destruct (IH s1) as (r & dch & dreq & Hrun & Hvis).
    exists r, (namespace_samples env (length (reqs s) + 1) name
                 (SnapshotResponse_Data response) ++ dch),
      ([snapshots_request e datastore name] ++ dreq).
    split; [by eapply runs_bind_at|].
    rewrite R, length_app in Hvis. simpl in Hvis.
    destruct Hvis as [[-> ->]|(err & visited & failing & rest & -> & -> & -> & F)].
    + by left.
    + right. exists err, (name :: visited), failing, rest.
      split; [done|]. split; [done|]. split; [done|].
      rewrite <- F. simpl. f_equal. lia.
  - exists (Err err), [], (fetch_requests env e (snapshots_url e datastore name)).
    split; [by apply runs_bind_Err|].
    right. exists err, [], name, names. simpl. by rewrite Nat.add_0_r.
Qed.

(** The loop of [getDatastoreMetric] over the namespace listing, with its
    [continue] on the empty name, is the loop over the non-empty names. *)
Lemma namespace_loop_skip datastore data s :
  for_range data (fun namespace =>
    if bool_decide (ns namespace = "") then ret tt
    else getNamespaceMetric env loglevel e datastore (ns namespace)) s
  = for_range (named data) (getNamespaceMetric env loglevel e datastore) s.
Proof.
  revert s. unfold named. induction data as [|x data IH]; intros s; [done|].
  rewrite fmap_cons, filter_cons. cbn [for_range].
  case_bool_decide as Hx.
  - rewrite decide_False by auto. unfold bind at 1. simpl. apply IH.
  - rewrite decide_True by done. cbn [for_range]. unfold bind.
    destruct (getNamespaceMetric _ _ _ _ _ s) as [[[]|err] s1]; [apply IH|done].
Qed.

Lemma when_silent c (m : M unit) s :
  (exists l, m s = (Ok tt, {| ch := ch s; reqs := reqs s; logs := l |})) ->
  exists s1, when c m s = (Ok tt, s1) /\ ch s1 = ch s /\ reqs s1 = reqs s.
Proof.
  intros [l E]. destruct c; simpl; [|by exists s].
  rewrite E. by eexists.
Qed.

(** [getDatastoreMetric] first sends its three gauges, without a request;
    the rest is the call for the namespace listing and the loop. *)
Lemma getDatastoreMetric_prefix datastore s :
  exists s1,
    ch s1 = ch s ++ datastore_samples datastore /\ reqs s1 = reqs s
    /\ getDatastoreMetric env loglevel e datastore s
       = (response <- fetch env loglevel "--" e
                        (namespace_url e (Store datastore))
                        (Unmarshal_NamespaceResponse env) ;;
          for_range (named (NamespaceResponse_Data response))
            (getNamespaceMetric env loglevel e (Store datastore))) s1.
Proof.
  rewrite getDatastoreMetric_fetch.
  edestruct (when_silent (debug loglevel)) as (s1 & E1 & C1 & R1);
    [|rewrite (bind_Ok _ _ _ _ _ E1)].
  { destruct s. eexists. reflexivity. }
  exists {| ch := ch s1 ++ datastore_samples datastore; reqs := reqs s1;
            logs := logs s1 |}.
  split; [by rewrite <- C1|]. split; [done|].
  unfold bind at 1 2 3, send. cbn [ch reqs logs].
  unfold datastore_samples. rewrite <- !app_assoc. cbn [app].
  unfold bind, namespace_url.
  destruct (fetch _ _ _ _ _ _ _) as [[response|err] s2]; [|reflexivity].
  apply namespace_loop_skip.
Qed.

Lemma getDatastoreMetric_runs datastore s :
  match fetch_outcome env (length (reqs s)) "--" e
          (namespace_url e (Store datastore))
          (Unmarshal_NamespaceResponse env) with
  | Err err =>
      runs (getDatastoreMetric env loglevel e datastore) s (Err err)
        (datastore_samples datastore)
        (fetch_requests env e (namespace_url e (Store datastore)))
  | Ok response =>
      exists r dch dreq,
        runs (getDatastoreMetric env loglevel e datastore) s r
          (datastore_samples datastore ++ dch)
          (api_request e (namespace_url e (Store datastore)) :: dreq)
        /\ visits env e (Store datastore) (length (reqs s) + 1)
             (named (NamespaceResponse_Data response)) r dreq
  end.
Proof.
  destruct (getDatastoreMetric_prefix datastore s) as (s1 & C1 & R1 & E).
  pose proof (runs_fetch env loglevel "--" e (namespace_url e (Store datastore))
                (Unmarshal_NamespaceResponse env) s1) as F.
  rewrite R1 in F.
  destruct (fetch_outcome _ _ _ _ _ _) as [response|err] eqn:O.
  - apply (answers_outcome _ _ "--") in O as Hans.
    rewrite (answers_requests _ _ _ _ _ _ Hans) in F.
    destruct F as (s2 & E2 & C2 & R2).
    destruct (namespace_loop_runs (Store datastore)
                (named (NamespaceResponse_Data response)) s2)
      as (r & dch & dreq & (s3 & E3 & C3 & R3) & Hvis).
    exists r, dch, dreq. split.
    + exists s3. rewrite E, (bind_Ok _ _ _ _ _ E2), E3.
      rewrite C3, R3, C2, R2, C1, R1, app_nil_r, <- !app_assoc. done.
    + rewrite R2, R1, length_app in Hvis. exact Hvis.
  - destruct F as (s2 & E2 & C2 & R2). exists s2.
    rewrite E, (bind_Err _ _ _ _ _ E2), C2, R2, C1, R1, app_nil_r. done.
Qed.

End Loops.

(** ** The whole scrape, request by request *)

Section ScrapeLemmas.

Context (env : Env) (loglevel : string) (e : Exporter).

Lemma getNodeMetrics_runs s :
  let o := fetch_outcome env (length (reqs s)) "" e (node_url e)
             (Unmarshal_HostResponse env) in
  runs (getNodeMetrics env loglevel e) s
    (match o with Ok _ => Ok tt | Err err => Err err end)
    (match o with
     | Ok response => host_samples (HostResponse_Data response)
     | Err _ => []
     end)
    (fetch_requests env e (node_url e)).
Proof.
  intros o. eapply runs_ext; [apply getNodeMetrics_fetch|].
  pose proof (runs_fetch env loglevel "" e (node_url e)
                (Unmarshal_HostResponse env) s) as F.
  fold o in F. destruct o as [response|err]; [|by apply runs_bind_Err].
  eapply runs_bind_Ok_eq; [exact F| |reflexivity|by rewrite app_nil_r].
  intros s1 _ _. apply runs_sends.
Qed.

End ScrapeLemmas.

(** * The namespace collector *)

(** C3: when the snapshot listing of a namespace is fetched and decoded,
    the namespace collector sends one [snapshot_count] sample carrying the
    length of the listing, followed by one [snapshot_vm_count] sample per
    distinct backup-source identifier carrying the number of snapshots with
    that identifier, in the order of the map iteration; for a listing
    whose identifiers are [a; a; b] in any order, that is the count 3 and
    the pairs a:2 and b:1. *)
Theorem getNamespaceMetric_groups_by_backup_id
    env loglevel e datastore namespace s response :
  answers env (length (reqs s)) e (snapshots_url e datastore namespace)
    (Unmarshal_SnapshotResponse env) response ->
  len (SnapshotResponse_Data response) <= int_max ->
  let data := SnapshotResponse_Data response in
  exists vms,
    runs (getNamespaceMetric env loglevel e datastore namespace) s (Ok tt)
      (snapshot_count_sample namespace (len data) :: vms)
      [api_request e (snapshots_url e datastore namespace)]
    /\ vms ≡ₚ (fun id => snapshot_vm_count_sample namespace
                         (id, Z.of_nat (multiplicity id data)))
             <$> remove_dups (BackupID <$> data)
    /\ forall a b,
         a ≠ b -> BackupID <$> data ≡ₚ [a; a; b] ->
         snapshot_count_sample namespace (len data)
         = snapshot_count_sample namespace 3
         /\ vms ≡ₚ [ snapshot_vm_count_sample namespace (a, 2);
                    snapshot_vm_count_sample namespace (b, 1) ].
Proof.
  intros Hans Hlen data.
  pose proof (getNamespaceMetric_runs env loglevel e datastore namespace s)
    as Hrun.
  apply (answers_outcome _ _ "----") in Hans as Hout.
  cbv zeta in Hrun. rewrite Hout in Hrun.
  rewrite (answers_requests _ _ _ _ _ _ Hans) in Hrun.
  eexists. split; [exact Hrun|]. fold data. split.
  - rewrite (map_range_count_vms env _ data (remove_dups (BackupID <$> data)));
      [by rewrite <- list_fmap_compose|done|apply NoDup_remove_dups|].
    intros id. apply elem_of_remove_dups.
  - intros a b Hab Hperm. split.
    + f_equal. rewrite <- (len_fmap BackupID). unfold len. by rewrite Hperm.
    + rewrite (map_range_count_vms env _ data [a; b]); [|done| |].
      * assert (forall id, multiplicity id data
                           = length (filter (fun x => x = id) [a; a; b])) as Hm.
        { intros id. rewrite multiplicity_fmap. by rewrite Hperm. }
        cbn [fmap list_fmap]. rewrite !Hm, !filter_cons, filter_nil.
        repeat case_decide; done || congruence.
      * apply NoDup_cons. split; [by rewrite list_elem_of_singleton|].
        apply NoDup_singleton.
      * intros id. rewrite Hperm, !elem_of_cons. tauto.
Qed.

(** C9: for every snapshot listing the namespace collector processes, the
    counts carried by the [snapshot_vm_count] samples, one per distinct
    identifier, add up to the count carried by the [snapshot_count] sample,
    which is sent even when the listing is empty, then with the value 0
    and no [snapshot_vm_count] sample after it. *)
Theorem getNamespaceMetric_counts_add_up
    env loglevel e datastore namespace s response :
  answers env (length (reqs s)) e (snapshots_url e datastore namespace)
    (Unmarshal_SnapshotResponse env) response ->
  len (SnapshotResponse_Data response) <= int_max ->
  let data := SnapshotResponse_Data response in
  exists entries,
    runs (getNamespaceMetric env loglevel e datastore namespace) s (Ok tt)
      (snapshot_count_sample namespace (len data)
       :: (snapshot_vm_count_sample namespace <$> entries))
      [api_request e (snapshots_url e datastore namespace)]
    /\ NoDup entries.*1
    /\ Z_sum entries.*2 = len data
    /\ (data = [] ->
        entries = []
        /\ value (snapshot_count_sample namespace (len data)) = 0%float).
Proof.
  intros Hans Hlen data.
  pose proof (getNamespaceMetric_runs env loglevel e datastore namespace s)
    as Hrun.
  apply (answers_outcome _ _ "----") in Hans as Hout.
  cbv zeta in Hrun. rewrite Hout in Hrun.
  rewrite (answers_requests _ _ _ _ _ _ Hans) in Hrun.
  eexists. split; [exact Hrun|]. fold data.
  pose proof (map_range_perm env (length (reqs s) + 1) (count_vms data))
    as Hperm.
  split; [|split].
  - rewrite Hperm. apply NoDup_fst_map_to_list.
  - rewrite (Z_sum_Permutation _
               ((fun id => Z.of_nat (multiplicity id data))
                <$> remove_dups (BackupID <$> data))).
    + rewrite Z_sum_of_nat, sum_multiplicity; [done|apply NoDup_remove_dups|].
      intros id. by rewrite elem_of_remove_dups.
    + rewrite (map_range_count_vms env _ data (remove_dups (BackupID <$> data)));
        [by rewrite <- list_fmap_compose|done|apply NoDup_remove_dups|].
      intros id. apply elem_of_remove_dups.
  - intros Hnil. split; [|by rewrite Hnil].
    apply Permutation_nil_r. by rewrite Hperm, Hnil.
Qed.

(** * The datastore collector *)

(** C4, as the code has it: once the namespace listing of a datastore is
    fetched and decoded, the datastore collector goes through its non-empty
    names in the order of the listing (the empty name is never among them)
    and calls the namespace collector once for each, which shows as one
    snapshot request each, until a call fails: the names after the failing
    one are not visited.  When no call fails, every non-empty name of the
    listing has been visited exactly once. *)
Theorem getDatastoreMetric_visits_named_namespaces
    env loglevel e datastore s response :
  answers env (length (reqs s)) e (namespace_url e (Store datastore))
    (Unmarshal_NamespaceResponse env) response ->
  let names := named (NamespaceResponse_Data response) in
  ("" ∉ names)
  /\ exists r dch dreq,
       runs (getDatastoreMetric env loglevel e datastore) s r
         (datastore_samples datastore ++ dch)
         (api_request e (namespace_url e (Store datastore)) :: dreq)
       /\ visits env e (Store datastore) (length (reqs s) + 1) names r dreq.
Proof.
  intros Hans names. split.
  - unfold names, named. rewrite list_elem_of_filter. by intros [? _].
  - pose proof (getDatastoreMetric_runs env loglevel e datastore s) as H.
    apply (answers_outcome _ _ "--") in Hans. by rewrite Hans in H.
Qed.

(** * The scrape *)

Lemma Collect_unfold env loglevel e s :
  let r := (collectFromAPI env loglevel e s).1 in
  let s' := (collectFromAPI env loglevel e s).2 in
  ch (Collect env loglevel e s)
  = ch s' ++ [up_sample (match r with Ok _ => 1 | Err _ => 0 end)]
  /\ reqs (Collect env loglevel e s) = reqs s'
  /\ logs (Collect env loglevel e s)
     = logs s' ++ match r with Ok _ => [] | Err err => [Println err] end.
Proof.
  unfold Collect. destruct (collectFromAPI env loglevel e s) as [[[]|err] s'];
    simpl; by rewrite ?app_nil_r.
Qed.

(** C6: the exporter built by [NewExporter] holds the header value
    [PBSAPIToken=<username>!<token name>:<token>], and every request of a
    scrape is a GET request whose header holds, under [Authorization], that
    one value and nothing else. *)
Theorem Collect_requests_carry_the_token
    env loglevel endpoint username apitoken apitokenname s :
  let e := NewExporter endpoint username apitoken apitokenname in
  authorizationHeader e
  = "PBSAPIToken=" +:+ username +:+ "!" +:+ apitokenname +:+ ":" +:+ apitoken
  /\ exists dreq,
       reqs (Collect env loglevel e s) = reqs s ++ dreq
       /\ Forall (fun req =>
                    Method req = "GET"
                    /\ Header req
                       = {[ "Authorization" := [authorizationHeader e] ]})
            dreq.
Proof.
  intros e. split; [reflexivity|].
  destruct (Collect_unfold env loglevel e s) as (_ & R & _). cbv zeta in R.
  destruct (collectFromAPI_keeps env loglevel e s)
    as (dch & dreq & _ & Hreq & _ & Hall).
  exists dreq. by rewrite R.
Qed.

(** * The calls one by one *)

Lemma refused_outcome {A} env n dashes e url (decode : string -> option A) resp :
  refused env n e url resp ->
  fetch_outcome env n dashes e url decode = Err (refusal dashes e resp)
  /\ fetch_requests env e url = [api_request e url].
Proof.
  intros (Hacc & Hdo & Hst). unfold fetch_outcome, fetch_requests, refusal.
  rewrite Hacc, Hdo. destruct (Body resp); [|done].
  by rewrite bool_decide_eq_true_2.
Qed.

(** C7, as the code has it: whichever of the four calls it is, an answer
    with a status other than 200 ends the function that made the call with
    an error, after that one request (nothing is retried): the status error
    when the body of the answer could be read, the error of reading it
    otherwise.  When it is the usage listing that is answered so, the scrape
    issues no other request and sends nothing but [up = 0]. *)
Theorem non_200_ends_the_call env loglevel e s resp :
  (refused env (length (reqs s)) e (usage_url e) resp ->
   runs (collectFromAPI env loglevel e) s (Err (refusal "" e resp))
     [] [api_request e (usage_url e)]
   /\ reqs (Collect env loglevel e s)
      = reqs s ++ [api_request e (usage_url e)]
   /\ ch (Collect env loglevel e s) = ch s ++ [up_sample 0])
  /\ (refused env (length (reqs s)) e (node_url e) resp ->
      runs (getNodeMetrics env loglevel e) s (Err (refusal "" e resp))
        [] [api_request e (node_url e)])
  /\ (forall datastore,
        refused env (length (reqs s)) e (namespace_url e (Store datastore))
          resp ->
        runs (getDatastoreMetric env loglevel e datastore) s
          (Err (refusal "--" e resp)) (datastore_samples datastore)
          [api_request e (namespace_url e (Store datastore))])
  /\ (forall datastore namespace,
        refused env (length (reqs s)) e (snapshots_url e datastore namespace)
          resp ->
        runs (getNamespaceMetric env loglevel e datastore namespace) s
          (Err (refusal "----" e resp)) []
          [api_request e (snapshots_url e datastore namespace)]).
Proof.
  split; [|split; [|split]].
  - intros Href.
    destruct (refused_outcome env _ "" e _ (Unmarshal_DatastoreResponse env)
                resp Href) as [O Q].
    pose proof (runs_fetch env loglevel "" e (usage_url e)
                  (Unmarshal_DatastoreResponse env) s) as F.
    rewrite O, Q in F. eapply runs_bind_Err in F.
    eapply runs_ext in F; [|apply collectFromAPI_fetch].
    split; [exact F|].
    destruct (Collect_unfold env loglevel e s) as (C & R & _).
    cbv zeta in C, R. destruct F as (s1 & E1 & C1 & R1).
    rewrite E1 in C, R. simpl in C, R. rewrite app_nil_r in C1.
    by rewrite C, R, C1, R1.
  - intros Href.
    destruct (refused_outcome env _ "" e _ (Unmarshal_HostResponse env)
                resp Href) as [O Q].
    pose proof (getNodeMetrics_runs env loglevel e s) as H.
    cbv zeta in H. by rewrite O, Q in H.
  - intros datastore Href.
    destruct (refused_outcome env _ "--" e _ (Unmarshal_NamespaceResponse env)
                resp Href) as [O Q].
    pose proof (getDatastoreMetric_runs env loglevel e datastore s) as H.
    by rewrite O, Q in H.
  - intros datastore namespace Href.
    destruct (refused_outcome env _ "----" e _ (Unmarshal_SnapshotResponse env)
                resp Href) as [O Q].
    pose proof (getNamespaceMetric_runs env loglevel e datastore namespace s)
      as H.
    cbv zeta in H. by rewrite O, Q in H.
Qed.

(** C5, as the code has it: when the node status is fetched and decoded,
    the host collector sends twelve samples, in this order: cpu usage;
    memory free, total, used; swap free, total, used; disk available,
    total, used; uptime; io wait.  Each is a gauge without labels and
    carries the field of the decoded status it is named after, the integer
    fields converted to [float64]. *)
Theorem getNodeMetrics_sends_twelve_gauges env loglevel e s response :
  answers env (length (reqs s)) e (node_url e) (Unmarshal_HostResponse env)
    response ->
  let data := HostResponse_Data response in
  exists samples,
    runs (getNodeMetrics env loglevel e) s (Ok tt) samples
      [api_request e (node_url e)]
    /\ length samples = 12%nat
    /\ Forall (fun m => valueType m = GaugeValue
                        /\ variableLabels (desc m) = []
                        /\ labelValues m = []) samples
    /\ (fun m => (fqName (desc m), value m)) <$> samples
       = [ ("pbs_host_cpu_usage", CPU data);
           ("pbs_host_memory_free", float64_of_int (Free (Mem data)));
           ("pbs_host_memory_total", float64_of_int (Usage_Total (Mem data)));
           ("pbs_host_memory_used", float64_of_int (Usage_Used (Mem data)));
           ("pbs_host_swap_free", float64_of_int (Free (Swap data)));
           ("pbs_host_swap_total", float64_of_int (Usage_Total (Swap data)));
           ("pbs_host_swap_used", float64_of_int (Usage_Used (Swap data)));
           ("pbs_host_available_free",
            float64_of_int (Disk_Avail (Disk data)));
           ("pbs_host_disk_total", float64_of_int (Disk_Total (Disk data)));
           ("pbs_host_disk_used", float64_of_int (Disk_Used (Disk data)));
           ("pbs_host_uptime", float64_of_int (Uptime data));
           ("pbs_host_io_wait", Wait data) ].
Proof.
  intros Hans data.
  pose proof (getNodeMetrics_runs env loglevel e s) as H. cbv zeta in H.
  apply (answers_outcome _ _ "") in Hans as O. rewrite O in H.
  rewrite (answers_requests _ _ _ _ _ _ Hans) in H.
  exists (host_samples data). split; [exact H|].
  split; [reflexivity|]. split; [|reflexivity].
  repeat constructor.
Qed.

(** * Start-up *)

Lemma Getenv_set environ key v :
  environ !! key = Some v -> Main.Getenv environ key = v.
Proof. unfold Main.Getenv. by intros ->. Qed.

Lemma Getenv_unset environ key :
  environ !! key = None \/ environ !! key = Some "" ->
  Main.Getenv environ key = "".
Proof. unfold Main.Getenv. by intros [-> | ->]. Qed.

Lemma override_other environ key set (get : Main.Flags -> string) f :
  (forall v f, get (set v f) = get f) ->
  get (Main.override environ key set f) = get f.
Proof. intros H. unfold Main.override. by case_bool_decide. Qed.

Lemma override_own environ key set (get : Main.Flags -> string) f :
  (forall v f, get (set v f) = v) ->
  get (Main.override environ key set f)
  = if bool_decide (Main.Getenv environ key ≠ "")
    then Main.Getenv environ key else get f.
Proof. intros H. unfold Main.override. by case_bool_decide. Qed.

Ltac through_overrides :=
  repeat match goal with
    | |- context [?get (Main.override ?environ ?key ?set ?f)] =>
        first [ rewrite (override_other environ key set get f) by done
              | rewrite (override_own environ key set get f) by done ]
    end.

(** C8: for each of the nine configuration items, when its environment
    variable is set to a non-empty value, the configuration [main] works
    with holds that value in place of the flag's; when the variable is not
    set, or set to the empty string, it holds the value of the flag.  That
    configuration is what [main] serves with: the exporter is built from
    it, the TLS switch and the timeout are parsed from it. *)
Theorem environment_overrides_flags (environ : gmap string string) parsed :
  Forall (fun item : string * (Main.Flags -> string) =>
            (forall v, environ !! item.1 = Some v -> v ≠ "" ->
                       item.2 (Main.apply_environment environ parsed) = v)
            /\ (environ !! item.1 = None \/ environ !! item.1 = Some "" ->
                item.2 (Main.apply_environment environ parsed)
                = item.2 parsed))
    Main.items
  /\ forall ParseDuration srv,
       Main.main ParseDuration environ parsed = Main.Serving srv ->
       let effective := Main.apply_environment environ parsed in
       Main.flags srv = effective
       /\ Main.exporter srv
          = NewExporter (Main.endpoint effective) (Main.username effective)
              (Main.apitoken effective) (Main.apitokenname effective)
       /\ Main.ParseBool (Main.insecure effective)
          = Some (Main.InsecureSkipVerify srv)
       /\ ParseDuration (Main.timeout effective) = Some (Main.Timeout srv).
Proof.
  split; cycle 1.
  { intros ParseDuration srv. unfold Main.main.
    destruct (Main.ParseBool _) as [[]|]; [| |done];
      destruct (ParseDuration _); [|done| |done]; by intros [= <-]. }
  assert (forall key get,
    get (Main.apply_environment environ parsed)
    = (if bool_decide (Main.Getenv environ key ≠ "")
       then Main.Getenv environ key else get parsed) ->
    (forall v, environ !! key = Some v -> v ≠ "" ->
               get (Main.apply_environment environ parsed) = v)
    /\ (environ !! key = None \/ environ !! key = Some "" ->
        get (Main.apply_environment environ parsed) = get parsed)) as Hitem.
  { intros key get ->. split.
    - intros v Hv Hne. rewrite (Getenv_set _ _ _ Hv).
      by rewrite bool_decide_eq_true_2.
    - intros Hu. rewrite (Getenv_unset _ _ Hu).
      by rewrite bool_decide_eq_false_2 by auto. }
  unfold Main.items.
  repeat (apply Forall_cons; split; [apply Hitem|]); [..|apply Forall_nil];
    unfold Main.apply_environment; cbv zeta; through_overrides; reflexivity.
Qed.

(** * Metric names *)

(** C10: the gauge of the available space of the root disk is described,
    and sent, under the name [pbs_host_available_free], which does not
    start with [pbs_host_disk_] as the names of the two other root-disk
    gauges, [pbs_host_disk_total] and [pbs_host_disk_used], do. *)
Theorem host_disk_available_name :
  fqName host_disk_available = "pbs_host_available_free"
  /\ fqName host_disk_total = "pbs_host_disk_total"
  /\ fqName host_disk_used = "pbs_host_disk_used"
  /\ String.prefix "pbs_host_disk_" (fqName host_disk_available) = false
  /\ String.prefix "pbs_host_disk_" (fqName host_disk_total) = true
  /\ String.prefix "pbs_host_disk_" (fqName host_disk_used) = true
  /\ host_disk_available ∈ Describe
  /\ forall data,
       host_samples data !! 7%nat
       = Some (MustNewConstMetric host_disk_available GaugeValue
                 (float64_of_int (Disk_Avail (Disk data))) []).
Proof.
  repeat split; try reflexivity.
  unfold Describe. repeat (apply elem_of_cons; first [by left|right]).
Qed.

(** * The theorems at work on the test backends *)

Lemma healthy_answers_snapshots :
  answers healthy 0 pbs (snapshots_url pbs "tank" "prod")
    (Unmarshal_SnapshotResponse healthy)
    {| SnapshotResponse_Data :=
         [ {| BackupID := "100" |}; {| BackupID := "100" |};
           {| BackupID := "101" |} ] |}.
Proof.
  split; [reflexivity|]. exists (ok "prod"), "prod". vm_compute. auto.
Defined.

Lemma getNamespaceMetric_groups_by_backup_id_witness :
  exists vms,
    runs (getNamespaceMetric healthy "info" pbs "tank" "prod") State0 (Ok tt)
      (snapshot_count_sample "prod" 3 :: vms)
      [api_request pbs (snapshots_url pbs "tank" "prod")]
    /\ vms ≡ₚ [ snapshot_vm_count_sample "prod" ("100", 2);
               snapshot_vm_count_sample "prod" ("101", 1) ].
Proof.
  destruct (getNamespaceMetric_groups_by_backup_id healthy "info" pbs "tank"
              "prod" State0 _ healthy_answers_snapshots)
    as (vms & Hrun & _ & Hab).
  { vm_compute. discriminate. }
  exists vms. split; [exact Hrun|].
  apply (Hab "100" "101"); [discriminate|reflexivity].
Defined.

Lemma getNamespaceMetric_counts_add_up_witness :
  exists entries,
    runs (getNamespaceMetric healthy "info" pbs "tank" "prod") State0 (Ok tt)
      (snapshot_count_sample "prod" 3
       :: (snapshot_vm_count_sample "prod" <$> entries))
      [api_request pbs (snapshots_url pbs "tank" "prod")]
    /\ Z_sum entries.*2 = 3.
Proof.
  destruct (getNamespaceMetric_counts_add_up healthy "info" pbs "tank"
              "prod" State0 _ healthy_answers_snapshots)
    as (entries & Hrun & _ & Hsum & _).
  { vm_compute. discriminate. }
  exists entries. split; [exact Hrun|exact Hsum].
Defined.

(** A failing scrape: the namespace listing answers 500 after the gauges of
    the datastore went out. *)
Lemma Collect_publishes_partial_samples :
  (collectFromAPI namespaces_down "info" pbs State0).1
  = Err (Errorf "ERROR: --Status code %d returned from endpoint: %s" 500
           "http://pbs:8007")
  /\ ch (Collect namespaces_down "info" pbs State0)
     = datastore_samples tank ++ [up_sample 0]
  /\ ch (Collect namespaces_down "info" pbs State0) ≠ [up_sample 0].
Proof.
  split; [vm_compute; reflexivity|]. split; [vm_compute; reflexivity|].
  vm_compute. discriminate.
Qed.

(** A scrape in which every call answers: the node status is the last
    request, not the first. *)
Lemma Collect_fetches_host_last :
  (collectFromAPI healthy "info" pbs State0).1 = Ok tt
  /\ URL <$> reqs (Collect healthy "info" pbs State0)
     = [ usage_url pbs; namespace_url pbs "tank";
         snapshots_url pbs "tank" "prod"; snapshots_url pbs "tank" "test";
         node_url pbs ]
  /\ head (URL <$> reqs (Collect healthy "info" pbs State0))
     ≠ Some (node_url pbs).
Proof.
  split; [vm_compute; reflexivity|]. split; [vm_compute; reflexivity|].
  vm_compute. discriminate.
Qed.

(** The snapshot listing of [prod] answers 500: [test], a non-empty name
    of the listing, is never visited. *)
Lemma snapshots_down_answers_namespaces :
  answers snapshots_down 0 pbs (namespace_url pbs (Store tank))
    (Unmarshal_NamespaceResponse snapshots_down)
    {| NamespaceResponse_Data :=
         [ {| ns := "" |}; {| ns := "prod" |}; {| ns := "test" |} ] |}.
Proof.
  split; [reflexivity|]. exists (ok "namespaces"), "namespaces".
  by vm_compute.
Defined.

Lemma getDatastoreMetric_stops_at_failed_namespace :
  answers snapshots_down 0 pbs (namespace_url pbs (Store tank))
    (Unmarshal_NamespaceResponse snapshots_down)
    {| NamespaceResponse_Data :=
         [ {| ns := "" |}; {| ns := "prod" |}; {| ns := "test" |} ] |}
  /\ URL <$> reqs (getDatastoreMetric snapshots_down "info" pbs tank State0).2
     = [ namespace_url pbs "tank"; snapshots_url pbs "tank" "prod" ]
  /\ snapshots_url pbs "tank" "test"
     ∉ URL <$> reqs (getDatastoreMetric snapshots_down "info" pbs tank State0).2.
Proof.
  split; [exact snapshots_down_answers_namespaces|].
  assert (URL <$> reqs (getDatastoreMetric snapshots_down "info" pbs tank
                          State0).2
          = [ namespace_url pbs "tank"; snapshots_url pbs "tank" "prod" ])
    as E by (vm_compute; reflexivity).
  split; [exact E|]. rewrite E, !elem_of_cons, elem_of_nil.
  intros [H|[H|[]]]; vm_compute in H; discriminate H.
Qed.

Lemma getDatastoreMetric_visits_named_namespaces_witness :
  exists r dreq,
    visits snapshots_down pbs "tank" 1 ["prod"; "test"] r dreq
    /\ exists dch,
         runs (getDatastoreMetric snapshots_down "info" pbs tank) State0 r
           (datastore_samples tank ++ dch)
           (api_request pbs (namespace_url pbs "tank") :: dreq).
Proof.
  destruct (getDatastoreMetric_visits_named_namespaces snapshots_down "info"
              pbs tank State0 _ snapshots_down_answers_namespaces)
    as (_ & r & dch & dreq & Hrun & Hvis).
  exists r, dreq. split; [exact Hvis|]. exists dch. exact Hrun.
Defined.

(** The node status answers: twelve samples, not eleven. *)
Lemma getNodeMetrics_sends_twelve :
  (getNodeMetrics healthy "info" pbs State0).1 = Ok tt
  /\ length (ch (getNodeMetrics healthy "info" pbs State0).2) = 12%nat
  /\ length (ch (getNodeMetrics healthy "info" pbs State0).2) ≠ 11%nat.
Proof.
  split; [vm_compute; reflexivity|]. split; [vm_compute; reflexivity|].
  vm_compute. discriminate.
Qed.

Lemma getNodeMetrics_sends_twelve_gauges_witness :
  exists samples,
    runs (getNodeMetrics healthy "info" pbs) State0 (Ok tt) samples
      [api_request pbs (node_url pbs)]
    /\ length samples = 12%nat.
Proof.
  destruct (getNodeMetrics_sends_twelve_gauges healthy "info" pbs State0
              {| HostResponse_Data := tank_host |})
    as (samples & Hrun & Hlen & _).
  { split; [reflexivity|]. exists (ok "status"), "status".
    vm_compute. auto. }
  exists samples. split; [exact Hrun|exact Hlen].
Defined.

(** The usage listing answers 500 and its body cannot be read: the error is
    the error of reading, not a status error. *)
Lemma cut_body_is_not_a_status_error :
  Do usage_cut 0 (api_request pbs (usage_url pbs))
  = Some {| StatusCode := 500; Body := None |}
  /\ (collectFromAPI usage_cut "info" pbs State0).1 = Err ErrReadAll
  /\ forall format code endpoint,
       (collectFromAPI usage_cut "info" pbs State0).1
       ≠ Err (Errorf format code endpoint).
Proof.
  assert ((collectFromAPI usage_cut "info" pbs State0).1 = Err ErrReadAll)
    as E by (vm_compute; reflexivity).
  split; [vm_compute; reflexivity|]. split; [exact E|].
  intros format code endpoint. rewrite E. discriminate.
Qed.

Lemma non_200_ends_the_call_witness :
  runs (collectFromAPI usage_down "info" pbs) State0
    (Err (Errorf "ERROR: Status code %d returned from endpoint: %s" 500
            "http://pbs:8007"))
    [] [api_request pbs (usage_url pbs)]
  /\ reqs (Collect usage_down "info" pbs State0)
     = [api_request pbs (usage_url pbs)]
  /\ ch (Collect usage_down "info" pbs State0) = [up_sample 0].
Proof.
  destruct (non_200_ends_the_call usage_down "info" pbs State0
              {| StatusCode := 500; Body := Some "internal error" |})
    as (Husage & _).
  apply Husage. split; [reflexivity|].
  split; [vm_compute; reflexivity|discriminate].
Defined.

Lemma environment_overrides_flags_witness :
  Main.endpoint
    (Main.apply_environment {[ "PBS_ENDPOINT" := "https://backup:8007" ]}
       Main.defaults)
  = "https://backup:8007"
  /\ Main.username
       (Main.apply_environment {[ "PBS_ENDPOINT" := "https://backup:8007" ]}
          Main.defaults)
     = "root@pam".
Proof.
  destruct (environment_overrides_flags
              {[ "PBS_ENDPOINT" := "https://backup:8007" ]} Main.defaults)
    as [H _].
  apply Forall_cons in H as [[Hset _] H].
  apply Forall_cons in H as [[_ Hunset] _].
  split.
  - apply Hset; [vm_compute; reflexivity|discriminate].
  - apply Hunset. left. vm_compute. reflexivity.
Defined.

(** * Beyond the claims: what a scrape sends *)

Lemma described_in_Describe d v labels :
  d ∈ Describe -> length labels = length (variableLabels d) ->
  described (MustNewConstMetric d GaugeValue v labels).
Proof. by repeat split. Qed.

Ltac in_Describe :=
  unfold Describe; repeat (apply elem_of_cons; first [by left|right]).

Section Described.

Context (env : Env) (loglevel : string) (e : Exporter).

Local Ltac described_step :=
  first
    [ apply keeps_ret | apply keeps_fail | apply keeps_log
    | apply keeps_range_map
    | apply keeps_fetch; exact I
    | apply keeps_send; apply described_in_Describe; [in_Describe|done]
    | apply keeps_when | apply keeps_for_range; intros
    | apply keeps_bind; [|intros] ].

Lemma getNamespaceMetric_described datastore namespace :
  keeps described (fun _ => True)
    (getNamespaceMetric env loglevel e datastore namespace).
Proof.
  eapply keeps_ext; [apply getNamespaceMetric_fetch|].
  repeat described_step. destruct x. described_step.
Qed.

Lemma getDatastoreMetric_described datastore :
  keeps described (fun _ => True)
    (getDatastoreMetric env loglevel e datastore).
Proof.
  eapply keeps_ext; [apply getDatastoreMetric_fetch|].
  repeat described_step.
  case_bool_decide; [described_step|apply getNamespaceMetric_described].
Qed.

Lemma getNodeMetrics_described :
  keeps described (fun _ => True) (getNodeMetrics env loglevel e).
Proof.
  eapply keeps_ext; [apply getNodeMetrics_fetch|].
  described_step; [described_step|]. apply keeps_sends.
  repeat constructor; in_Describe.
Qed.

Lemma collectFromAPI_described :
  keeps described (fun _ => True) (collectFromAPI env loglevel e).
Proof.
  eapply keeps_ext; [apply collectFromAPI_fetch|].
  repeat first [ apply getDatastoreMetric_described
               | apply getNodeMetrics_described | described_step ].
Qed.

Lemma getNamespaceMetric_snapshot_samples datastore namespace :
  keeps snapshot_sample (fun _ => True)
    (getNamespaceMetric env loglevel e datastore namespace).
Proof.
  eapply keeps_ext; [apply getNamespaceMetric_fetch|].
  apply keeps_bind; [apply keeps_when, keeps_log|intros _].
  apply keeps_bind; [by apply keeps_fetch|intros response].
  apply keeps_bind; [apply keeps_send; by left|intros _].
  apply keeps_bind; [apply keeps_range_map|intros entries].
  apply keeps_for_range. intros [vmName count]. apply keeps_send. by right.
Qed.

End Described.

(** X1: every scrape sends exactly one [up] sample, as its last sample:
    with the value 1 when [collectFromAPI] returns [nil], with the value 0
    when it returns an error. *)
Theorem Collect_sends_one_up_last env loglevel e s :
  exists samples,
    ch (Collect env loglevel e s)
    = ch s ++ samples
      ++ [up_sample (match (collectFromAPI env loglevel e s).1 with
                     | Ok _ => 1
                     | Err _ => 0
                     end)]
    /\ Forall (fun m => desc m ≠ up) samples.
Proof.
  destruct (Collect_unfold env loglevel e s) as (C & _ & _). cbv zeta in C.
  destruct (collectFromAPI_keeps env loglevel e s)
    as (samples & dreq & Hch & _ & Hall & _).
  exists samples. rewrite C, Hch, <- app_assoc. split; [done|].
  eapply Forall_impl; [exact Hall|]. by intros m [? _].
Qed.

(** X2: every sample of a scrape, whatever the backend answers, is a gauge
    under one of the eighteen descriptors announced by [Describe], with as
    many label values as that descriptor has labels; and the eighteen
    descriptors have eighteen different names. *)
Theorem Collect_sends_described_gauges env loglevel e s :
  (exists samples,
     ch (Collect env loglevel e s) = ch s ++ samples
     /\ Forall described samples)
  /\ NoDup (fqName <$> Describe).
Proof.
  split.
  - destruct (Collect_unfold env loglevel e s) as (C & _ & _). cbv zeta in C.
    destruct (collectFromAPI_described env loglevel e s)
      as (samples & dreq & Hch & _ & Hall & _).
    eexists. rewrite C, Hch, <- app_assoc. split; [done|].
    apply Forall_app. split; [done|]. apply Forall_singleton.
    apply described_in_Describe; [in_Describe|done].
  - apply (bool_decide_unpack _). vm_compute. exact I.
Qed.

(** ** The collectors one by one *)

(** X3: the host collector sends its twelve samples together or not at
    all.  Either the node status is fetched and decoded, the twelve samples
    go out and the result is [nil]; or the result is an error, nothing was
    sent, and at most the one request was issued. *)
Theorem getNodeMetrics_all_or_nothing env loglevel e s :
  (exists response,
     answers env (length (reqs s)) e (node_url e)
       (Unmarshal_HostResponse env) response
     /\ runs (getNodeMetrics env loglevel e) s (Ok tt)
          (host_samples (HostResponse_Data response))
          [api_request e (node_url e)])
  \/ (exists err dreq,
        runs (getNodeMetrics env loglevel e) s (Err err) [] dreq
        /\ (dreq = [] \/ dreq = [api_request e (node_url e)])).
Proof.
  pose proof (getNodeMetrics_runs env loglevel e s) as H. cbv zeta in H.
  destruct (fetch_outcome _ _ _ _ _ _) as [response|err] eqn:O.
  - left. exists response. apply (answers_outcome _ _ "") in O as Hans.
    split; [done|]. by rewrite (answers_requests _ _ _ _ _ _ Hans) in H.
  - right. exists err, (fetch_requests env e (node_url e)). split; [done|].
    unfold fetch_requests. destruct (NewRequest_accepts _ _ _); auto.
Qed.

(** X4: the namespace collector sends nothing unless the snapshot listing
    is fetched and decoded.  Then it sends the [snapshot_count] sample
    first, followed by [snapshot_vm_count] samples only, and returns [nil];
    otherwise it returns an error, has sent nothing, and has issued at most
    the one request. *)
Theorem getNamespaceMetric_all_or_nothing
    env loglevel e datastore namespace s :
  (exists response vms,
     answers env (length (reqs s)) e (snapshots_url e datastore namespace)
       (Unmarshal_SnapshotResponse env) response
     /\ runs (getNamespaceMetric env loglevel e datastore namespace) s (Ok tt)
          (snapshot_count_sample namespace
             (len (SnapshotResponse_Data response)) :: vms)
          [snapshots_request e datastore namespace]
     /\ Forall (fun m => desc m = snapshot_vm_count
                         /\ exists vmName, labelValues m = [namespace; vmName])
          vms)
  \/ (exists err dreq,
        runs (getNamespaceMetric env loglevel e datastore namespace) s
          (Err err) [] dreq
        /\ (dreq = [] \/ dreq = [snapshots_request e datastore namespace])).
Proof.
  pose proof (getNamespaceMetric_runs env loglevel e datastore namespace s)
    as H.
  cbv zeta in H.
  destruct (fetch_outcome _ _ _ _ _ _) as [response|err] eqn:O.
  - left. apply (answers_outcome _ _ "----") in O as Hans.
    rewrite (answers_requests _ _ _ _ _ _ Hans) in H.
    eexists response, _. split; [done|]. split; [exact H|].
    apply Forall_fmap, Forall_true. intros [vmName count]. simpl. eauto.
  - right. exists err, (fetch_requests env e (snapshots_url e datastore namespace)).
    split; [done|].
    unfold fetch_requests, snapshots_request.
    destruct (NewRequest_accepts _ _ _); auto.
Qed.

Lemma getDatastoreMetric_sends datastore env loglevel e s :
  exists d,
    ch (getDatastoreMetric env loglevel e datastore s).2
    = ch s ++ datastore_samples datastore ++ d
    /\ Forall snapshot_sample d.
Proof.
  destruct (getDatastoreMetric_prefix env loglevel e datastore s)
    as (s1 & C1 & _ & E).
  assert (keeps snapshot_sample (fun _ => True)
            (response <- fetch env loglevel "--" e
                           (namespace_url e (Store datastore))
                           (Unmarshal_NamespaceResponse env) ;;
             for_range (named (NamespaceResponse_Data response))
               (getNamespaceMetric env loglevel e (Store datastore)))) as K.
  { apply keeps_bind; [by apply keeps_fetch|intros response].
    apply keeps_for_range. intros namespace.
    apply getNamespaceMetric_snapshot_samples. }
  destruct (K s1) as (d & dreq & Hch & _ & Hall & _).
  exists d. rewrite E, Hch, C1, <- app_assoc. done.
Qed.

(** X5: the datastore collector sends the three gauges of the datastore
    first, whatever happens afterwards, and after them samples of the
    namespace collector only; when the namespace listing is not fetched
    and decoded, the three gauges are all it sends, and it returns an
    error. *)
Theorem getDatastoreMetric_sends_gauges_first env loglevel e datastore s :
  exists r d dreq,
    runs (getDatastoreMetric env loglevel e datastore) s r
      (datastore_samples datastore ++ d) dreq
    /\ Forall snapshot_sample d
    /\ ((forall response,
           ~ answers env (length (reqs s)) e
               (namespace_url e (Store datastore))
               (Unmarshal_NamespaceResponse env) response) ->
        d = [] /\ exists err, r = Err err).
Proof.
  destruct (getDatastoreMetric_sends datastore env loglevel e s)
    as (d & Hch & Hall).
  pose proof (getDatastoreMetric_runs env loglevel e datastore s) as H.
  destruct (fetch_outcome _ _ _ _ _ _) as [response|err] eqn:O.
  - destruct H as (r & dch & dreq & (s1 & E1 & C1 & R1) & _).
    exists r, d, (api_request e (namespace_url e (Store datastore)) :: dreq).
    split; [|split; [done|]].
    + exists s1. rewrite E1 in Hch. by rewrite E1.
    + intros Hno. apply (answers_outcome _ _ "--") in O. by destruct (Hno response).
  - destruct H as (s1 & E1 & C1 & R1). rewrite E1 in Hch. cbn [snd] in Hch.
    rewrite C1 in Hch. apply app_inv_head in Hch.
    rewrite <- (app_nil_r (datastore_samples datastore)) in Hch at 1.
    apply app_inv_head in Hch. subst d.
    exists (Err err), [], (fetch_requests env e (namespace_url e (Store datastore))).
    split; [exists s1; by rewrite app_nil_r|]. split; [done|]. eauto.
Qed.

(** ** The samples of a scrape that succeeds *)

Lemma for_range_Ok_sends {A} (body : A -> M unit)
    (P : A -> list Metric -> Prop) :
  (forall x s, exists d, ch (body x s).2 = ch s ++ d /\ P x d) ->
  forall l s,
    (for_range l body s).1 = Ok tt ->
    exists ds, Forall2 P l ds
               /\ ch (for_range l body s).2 = ch s ++ concat ds.
Proof.
  intros Hbody. induction l as [|x l IH]; intros s Hok.
  { exists []. split; [constructor|]. simpl. by rewrite app_nil_r. }
  destruct (Hbody x s) as (d & Hd & HP).
  cbn [for_range] in *. unfold bind in *.
  destruct (body x s) as [[[]|err] s1]; [|discriminate Hok].
  destruct (IH s1 Hok) as (ds & Hall & Hch).
  exists (d :: ds). split; [by constructor|].
  cbn [snd] in Hd. rewrite Hch, Hd. simpl. by rewrite app_assoc.
Qed.

(** What is on the channel after [collectFromAPI] returned [nil]. *)
Lemma collectFromAPI_success_samples env loglevel e s :
  (collectFromAPI env loglevel e s).1 = Ok tt ->
  exists usage blocks n host,
    answers env (length (reqs s)) e (usage_url e)
      (Unmarshal_DatastoreResponse env) usage
    /\ Forall2 datastore_block (DatastoreResponse_Data usage) blocks
    /\ answers env n e (node_url e) (Unmarshal_HostResponse env) host
    /\ ch (collectFromAPI env loglevel e s).2
       = ch s ++ concat blocks ++ host_samples (HostResponse_Data host).
Proof.
  rewrite collectFromAPI_fetch.
  destruct (fetch_run env loglevel "" e (usage_url e)
              (Unmarshal_DatastoreResponse env) s) as (s1 & E1 & C1 & _).
  unfold usage_url in *. unfold bind at 1 3. rewrite E1.
  destruct (fetch_outcome _ _ _ _ _ _) as [usage|err] eqn:O; [|discriminate].
  apply (answers_outcome _ _ "") in O as Hans.
  unfold bind.
  destruct (for_range _ _ s1) as [[[]|err] s2] eqn:E2; [|discriminate].
  intros Hok.
  destruct (for_range_Ok_sends
              (fun datastore => getDatastoreMetric env loglevel e datastore)
              datastore_block) with (l := DatastoreResponse_Data usage)
                                    (s := s1)
    as (blocks & Hall & Hch); [|by rewrite E2|].
  { intros ds s0.
    destruct (getDatastoreMetric_sends ds env loglevel e s0) as (d & Hd & HP).
    exists (datastore_samples ds ++ d). split; [done|]. by exists d. }
  rewrite E2 in Hch. cbn [snd] in Hch.
  pose proof (getNodeMetrics_runs env loglevel e s2) as N. cbv zeta in N.
  destruct N as (s3 & E3 & C3 & _). rewrite E3 in Hok |- *.
  destruct (fetch_outcome env (length (reqs s2)) "" e (node_url e)
              (Unmarshal_HostResponse env)) as [host|err] eqn:O2;
    [|discriminate].
  apply (answers_outcome _ _ "") in O2.
  exists usage, blocks, (length (reqs s2)), host.
  split; [exact Hans|]. split; [exact Hall|]. split; [exact O2|].
  cbn [snd]. by rewrite C3, Hch, C1, <- !app_assoc.
Qed.

(** X6: a scrape that succeeds has sent, for the datastores of the usage
    listing in its order, the three gauges of the datastore followed by
    samples of the namespace collector only; then the twelve samples of the
    decoded node status; then [up = 1]. *)
Theorem Collect_success_samples env loglevel e s :
  (collectFromAPI env loglevel e s).1 = Ok tt ->
  exists usage blocks n host,
    answers env (length (reqs s)) e (usage_url e)
      (Unmarshal_DatastoreResponse env) usage
    /\ Forall2 datastore_block (DatastoreResponse_Data usage) blocks
    /\ answers env n e (node_url e) (Unmarshal_HostResponse env) host
    /\ ch (Collect env loglevel e s)
       = ch s ++ concat blocks ++ host_samples (HostResponse_Data host)
         ++ [up_sample 1].
Proof.
  intros Hok.
  destruct (collectFromAPI_success_samples env loglevel e s Hok)
    as (usage & blocks & n & host & Hu & Hall & Hn & Hch).
  exists usage, blocks, n, host.
  split; [exact Hu|]. split; [exact Hall|]. split; [exact Hn|].
  destruct (Collect_unfold env loglevel e s) as (C & _). cbv zeta in C.
  rewrite C, Hok, Hch, <- !app_assoc. done.
Qed.

Lemma named_samples_app name l k :
  named_samples name (l ++ k) = named_samples name l ++ named_samples name k.
Proof. apply filter_app. Qed.

Lemma named_samples_snapshot name d :
  Forall snapshot_sample d ->
  name ≠ "pbs_snapshot_count" -> name ≠ "pbs_snapshot_vm_count" ->
  named_samples name d = [].
Proof.
  intros Hall H1 H2. unfold named_samples.
  induction Hall as [|m d Hm _ IH]; [done|].
  rewrite filter_cons, IH. rewrite decide_False; [done|].
  destruct Hm as [Hm|Hm]; rewrite Hm; intros <-; [by apply H1|by apply H2].
Qed.

Lemma named_samples_blocks name (gauge : Datastore -> Metric) dss blocks :
  name ≠ "pbs_snapshot_count" -> name ≠ "pbs_snapshot_vm_count" ->
  (forall ds, named_samples name (datastore_samples ds) = [gauge ds]) ->
  Forall2 datastore_block dss blocks ->
  named_samples name (concat blocks) = gauge <$> dss.
Proof.
  intros H1 H2 Hg. induction 1 as [|ds block dss blocks (d & -> & Hd) _ IH];
    [done|].
  cbn [concat]. rewrite !named_samples_app, Hg, IH.
  by rewrite (named_samples_snapshot name d).
Qed.

(** X7: the gauges of the datastores carry nothing that tells the
    datastores apart.  In a scrape that succeeds, the samples named
    [pbs_available] are, in the order of the usage listing, one per
    datastore, each without labels and carrying the available bytes of its
    datastore; likewise [pbs_size] and [pbs_used].  With two datastores the
    scrape therefore sends two samples of the same name and label values. *)
Theorem datastore_gauges_are_not_labelled env loglevel e s :
  (collectFromAPI env loglevel e s).1 = Ok tt ->
  exists usage samples,
    answers env (length (reqs s)) e (usage_url e)
      (Unmarshal_DatastoreResponse env) usage
    /\ ch (Collect env loglevel e s) = ch s ++ samples
    /\ named_samples "pbs_available" samples
       = (fun ds => MustNewConstMetric available GaugeValue
                      (float64_of_int (Avail ds)) [])
         <$> DatastoreResponse_Data usage
    /\ named_samples "pbs_size" samples
       = (fun ds => MustNewConstMetric size GaugeValue
                      (float64_of_int (Total ds)) [])
         <$> DatastoreResponse_Data usage
    /\ named_samples "pbs_used" samples
       = (fun ds => MustNewConstMetric used GaugeValue
                      (float64_of_int (Used ds)) [])
         <$> DatastoreResponse_Data usage.
Proof.
  intros Hok.
  destruct (collectFromAPI_success_samples env loglevel e s Hok)
    as (usage & blocks & n & host & Hu & Hall & _ & Hch).
  destruct (Collect_unfold env loglevel e s) as (C & _). cbv zeta in C.
  rewrite Hok, Hch, <- !app_assoc in C.
  eexists usage, _. split; [done|]. split; [exact C|].
  split; [|split]; rewrite !named_samples_app.
  - rewrite (named_samples_blocks "pbs_available"
               (fun ds => MustNewConstMetric available GaugeValue
                            (float64_of_int (Avail ds)) [])
               _ _ ltac:(done) ltac:(done) ltac:(done) Hall).
    apply app_nil_r.
  - rewrite (named_samples_blocks "pbs_size"
               (fun ds => MustNewConstMetric size GaugeValue
                            (float64_of_int (Total ds)) [])
               _ _ ltac:(done) ltac:(done) ltac:(done) Hall).
    apply app_nil_r.
  - rewrite (named_samples_blocks "pbs_used"
               (fun ds => MustNewConstMetric used GaugeValue
                            (float64_of_int (Used ds)) [])
               _ _ ltac:(done) ltac:(done) ltac:(done) Hall).
    apply app_nil_r.
Qed.

(** ** Calls that fail *)

(** Whatever makes a call fail, the function that made the call returns
    that error at once. *)
Lemma failed_call_is_returned env loglevel e s err :
  (fetch_outcome env (length (reqs s)) "" e (usage_url e)
     (Unmarshal_DatastoreResponse env) = Err err ->
   runs (collectFromAPI env loglevel e) s (Err err) []
     (fetch_requests env e (usage_url e)))
  /\ (fetch_outcome env (length (reqs s)) "" e (node_url e)
        (Unmarshal_HostResponse env) = Err err ->
      runs (getNodeMetrics env loglevel e) s (Err err) []
        (fetch_requests env e (node_url e)))
  /\ (forall datastore,
        fetch_outcome env (length (reqs s)) "--" e
          (namespace_url e (Store datastore))
          (Unmarshal_NamespaceResponse env) = Err err ->
        runs (getDatastoreMetric env loglevel e datastore) s (Err err)
          (datastore_samples datastore)
          (fetch_requests env e (namespace_url e (Store datastore))))
  /\ (forall datastore namespace,
        fetch_outcome env (length (reqs s)) "----" e
          (snapshots_url e datastore namespace)
          (Unmarshal_SnapshotResponse env) = Err err ->
        runs (getNamespaceMetric env loglevel e datastore namespace) s
          (Err err) []
          (fetch_requests env e (snapshots_url e datastore namespace))).
Proof.
  split; [|split; [|split]].
  - intros O.
    pose proof (runs_fetch env loglevel "" e (usage_url e)
                  (Unmarshal_DatastoreResponse env) s) as F.
    rewrite O in F. eapply runs_bind_Err in F.
    eapply runs_ext in F; [exact F|apply collectFromAPI_fetch].
  - intros O. pose proof (getNodeMetrics_runs env loglevel e s) as H.
    cbv zeta in H. by rewrite O in H.
  - intros datastore O.
    pose proof (getDatastoreMetric_runs env loglevel e datastore s) as H.
    by rewrite O in H.
  - intros datastore namespace O.
    pose proof (getNamespaceMetric_runs env loglevel e datastore namespace s)
      as H.
    cbv zeta in H. by rewrite O in H.
Qed.

Lemma Collect_after_failure env loglevel e s err dreq :
  runs (collectFromAPI env loglevel e) s (Err err) [] dreq ->
  reqs (Collect env loglevel e s) = reqs s ++ dreq
  /\ ch (Collect env loglevel e s) = ch s ++ [up_sample 0].
Proof.
  intros (s1 & E1 & C1 & R1).
  destruct (Collect_unfold env loglevel e s) as (C & R & _).
  cbv zeta in C, R. rewrite E1 in C, R. cbn [fst snd] in C, R.
  rewrite app_nil_r in C1. by rewrite C, R, C1, R1.
Qed.

Lemma refused_url_outcome {A} env n dashes e url (decode : string -> option A) :
  NewRequest_accepts env "GET" url = false ->
  fetch_outcome env n dashes e url decode = Err (ErrNewRequest "GET" url)
  /\ fetch_requests env e url = [].
Proof. intros H. unfold fetch_outcome, fetch_requests. by rewrite H. Qed.

Lemma unanswered_outcome {A} env n dashes e url (decode : string -> option A) :
  unanswered env n e url ->
  fetch_outcome env n dashes e url decode = Err (ErrDo (api_request e url))
  /\ fetch_requests env e url = [api_request e url].
Proof.
  intros [Hacc Hdo]. unfold fetch_outcome, fetch_requests.
  by rewrite Hacc, Hdo.
Qed.

Lemma undecodable_outcome {A} env n dashes e url (decode : string -> option A)
    body :
  undecodable env n e url decode body ->
  fetch_outcome env n dashes e url decode = Err (ErrUnmarshal body)
  /\ fetch_requests env e url = [api_request e url].
Proof.
  intros (Hacc & resp & Hdo & Hbody & Hst & Hdec).
  unfold fetch_outcome, fetch_requests. rewrite Hacc, Hdo, Hbody, Hdec.
  by rewrite bool_decide_eq_false_2 by (by intros []).
Qed.

(** X8: a URL that [http.NewRequest] refuses never reaches the server.
    Whichever of the four calls it is, the function that builds the request
    returns the error of [http.NewRequest] without having issued a request;
    when it is the URL of the usage listing, the scrape issues no request at
    all and sends nothing but [up = 0]. *)
Theorem refused_url_sends_no_request env loglevel e s :
  (NewRequest_accepts env "GET" (usage_url e) = false ->
   runs (collectFromAPI env loglevel e) s
     (Err (ErrNewRequest "GET" (usage_url e))) [] []
   /\ reqs (Collect env loglevel e s) = reqs s
   /\ ch (Collect env loglevel e s) = ch s ++ [up_sample 0])
  /\ (NewRequest_accepts env "GET" (node_url e) = false ->
      runs (getNodeMetrics env loglevel e) s
        (Err (ErrNewRequest "GET" (node_url e))) [] [])
  /\ (forall datastore,
        NewRequest_accepts env "GET" (namespace_url e (Store datastore))
        = false ->
        runs (getDatastoreMetric env loglevel e datastore) s
          (Err (ErrNewRequest "GET" (namespace_url e (Store datastore))))
          (datastore_samples datastore) [])
  /\ (forall datastore namespace,
        NewRequest_accepts env "GET" (snapshots_url e datastore namespace)
        = false ->
        runs (getNamespaceMetric env loglevel e datastore namespace) s
          (Err (ErrNewRequest "GET" (snapshots_url e datastore namespace)))
          [] []).
Proof.
  split; [|split; [|split]].
  - intros H.
    destruct (refused_url_outcome env (length (reqs s)) "" e (usage_url e)
                (Unmarshal_DatastoreResponse env) H) as [O Q].
    destruct (failed_call_is_returned env loglevel e s
                (ErrNewRequest "GET" (usage_url e))) as (F & _).
    specialize (F O). rewrite Q in F. split; [exact F|].
    destruct (Collect_after_failure _ _ _ _ _ _ F) as [R C].
    by rewrite app_nil_r in R.
  - intros H.
    destruct (refused_url_outcome env (length (reqs s)) "" e (node_url e)
                (Unmarshal_HostResponse env) H) as [O Q].
    destruct (failed_call_is_returned env loglevel e s
                (ErrNewRequest "GET" (node_url e))) as (_ & F & _).
    specialize (F O). by rewrite Q in F.
  - intros datastore H.
    destruct (refused_url_outcome env (length (reqs s)) "--" e
                (namespace_url e (Store datastore))
                (Unmarshal_NamespaceResponse env) H) as [O Q].
    destruct (failed_call_is_returned env loglevel e s
                (ErrNewRequest "GET" (namespace_url e (Store datastore))))
      as (_ & _ & F & _).
    specialize (F datastore O). by rewrite Q in F.
  - intros datastore namespace H.
    destruct (refused_url_outcome env (length (reqs s)) "----" e
                (snapshots_url e datastore namespace)
                (Unmarshal_SnapshotResponse env) H) as [O Q].
    destruct (failed_call_is_returned env loglevel e s
                (ErrNewRequest "GET" (snapshots_url e datastore namespace)))
      as (_ & _ & _ & F).
    specialize (F datastore namespace O). by rewrite Q in F.
Qed.

(** X9: a request that gets no answer (no connection, a TLS failure, the
    timeout) is not sent again.  Whichever of the four calls it is, the
    function that made it returns the error of [client.Do] after that one
    request; when it is the usage listing, the scrape issues that one
    request and sends nothing but [up = 0]. *)
Theorem unanswered_request_is_not_retried env loglevel e s :
  (unanswered env (length (reqs s)) e (usage_url e) ->
   runs (collectFromAPI env loglevel e) s
     (Err (ErrDo (api_request e (usage_url e)))) []
     [api_request e (usage_url e)]
   /\ reqs (Collect env loglevel e s)
      = reqs s ++ [api_request e (usage_url e)]
   /\ ch (Collect env loglevel e s) = ch s ++ [up_sample 0])
  /\ (unanswered env (length (reqs s)) e (node_url e) ->
      runs (getNodeMetrics env loglevel e) s
        (Err (ErrDo (api_request e (node_url e)))) []
        [api_request e (node_url e)])
  /\ (forall datastore,
        unanswered env (length (reqs s)) e
          (namespace_url e (Store datastore)) ->
        runs (getDatastoreMetric env loglevel e datastore) s
          (Err (ErrDo (api_request e (namespace_url e (Store datastore)))))
          (datastore_samples datastore)
          [api_request e (namespace_url e (Store datastore))])
  /\ (forall datastore namespace,
        unanswered env (length (reqs s)) e
          (snapshots_url e datastore namespace) ->
        runs (getNamespaceMetric env loglevel e datastore namespace) s
          (Err (ErrDo (snapshots_request e datastore namespace))) []
          [snapshots_request e datastore namespace]).
Proof.
  split; [|split; [|split]].
  - intros H.
    destruct (unanswered_outcome env (length (reqs s)) "" e (usage_url e)
                (Unmarshal_DatastoreResponse env) H) as [O Q].
    destruct (failed_call_is_returned env loglevel e s
                (ErrDo (api_request e (usage_url e)))) as (F & _).
    specialize (F O). rewrite Q in F. split; [exact F|].
    exact (Collect_after_failure _ _ _ _ _ _ F).
  - intros H.
    destruct (unanswered_outcome env (length (reqs s)) "" e (node_url e)
                (Unmarshal_HostResponse env) H) as [O Q].
    destruct (failed_call_is_returned env loglevel e s
                (ErrDo (api_request e (node_url e)))) as (_ & F & _).
    specialize (F O). by rewrite Q in F.
  - intros datastore H.
    destruct (unanswered_outcome env (length (reqs s)) "--" e
                (namespace_url e (Store datastore))
                (Unmarshal_NamespaceResponse env) H) as [O Q].
    destruct (failed_call_is_returned env loglevel e s
                (ErrDo (api_request e (namespace_url e (Store datastore)))))
      as (_ & _ & F & _).
    specialize (F datastore O). by rewrite Q in F.
  - intros datastore namespace H.
    destruct (unanswered_outcome env (length (reqs s)) "----" e
                (snapshots_url e datastore namespace)
                (Unmarshal_SnapshotResponse env) H) as [O Q].
    destruct (failed_call_is_returned env loglevel e s
                (ErrDo (snapshots_request e datastore namespace)))
      as (_ & _ & _ & F).
    specialize (F datastore namespace O). by rewrite Q in F.
Qed.

(** X10: the status 200 is not enough: an answer whose body does not decode
    ends the function that made the call with the error of
    [json.Unmarshal], after that one request.  The host collector and the
    namespace collector have then sent nothing, the datastore collector
    its three gauges; when it is the usage listing, the scrape sends
    nothing but [up = 0]. *)
Theorem undecodable_body_fails_the_call env loglevel e s body :
  (undecodable env (length (reqs s)) e (usage_url e)
     (Unmarshal_DatastoreResponse env) body ->
   runs (collectFromAPI env loglevel e) s (Err (ErrUnmarshal body)) []
     [api_request e (usage_url e)]
   /\ reqs (Collect env loglevel e s)
      = reqs s ++ [api_request e (usage_url e)]
   /\ ch (Collect env loglevel e s) = ch s ++ [up_sample 0])
  /\ (undecodable env (length (reqs s)) e (node_url e)
        (Unmarshal_HostResponse env) body ->
      runs (getNodeMetrics env loglevel e) s (Err (ErrUnmarshal body)) []
        [api_request e (node_url e)])
  /\ (forall datastore,
        undecodable env (length (reqs s)) e
          (namespace_url e (Store datastore))
          (Unmarshal_NamespaceResponse env) body ->
        runs (getDatastoreMetric env loglevel e datastore) s
          (Err (ErrUnmarshal body)) (datastore_samples datastore)
          [api_request e (namespace_url e (Store datastore))])
  /\ (forall datastore namespace,
        undecodable env (length (reqs s)) e
          (snapshots_url e datastore namespace)
          (Unmarshal_SnapshotResponse env) body ->
        runs (getNamespaceMetric env loglevel e datastore namespace) s
          (Err (ErrUnmarshal body)) []
          [snapshots_request e datastore namespace]).
Proof.
  destruct (failed_call_is_returned env loglevel e s (ErrUnmarshal body))
    as (F1 & F2 & F3 & F4).
  split; [|split; [|split]].
  - intros H.
    destruct (undecodable_outcome _ _ "" _ _ _ _ H) as [O Q].
    specialize (F1 O). rewrite Q in F1. split; [exact F1|].
    exact (Collect_after_failure _ _ _ _ _ _ F1).
  - intros H.
    destruct (undecodable_outcome _ _ "" _ _ _ _ H) as [O Q].
    specialize (F2 O). by rewrite Q in F2.
  - intros datastore H.
    destruct (undecodable_outcome _ _ "--" _ _ _ _ H) as [O Q].
    specialize (F3 datastore O). by rewrite Q in F3.
  - intros datastore namespace H.
    destruct (undecodable_outcome _ _ "----" _ _ _ _ H) as [O Q].
    specialize (F4 datastore namespace O). by rewrite Q in F4.
Qed.

(** ** Empty listings *)

(** X11: a backup server without datastores is scraped with two requests.
    When the usage listing decodes to no datastore and the node status,
    asked for next, is fetched and decoded, [collectFromAPI] returns [nil]
    after the usage request and the node request, and the scrape sends the
    twelve host samples and [up = 1], nothing else. *)
Theorem Collect_without_datastores env loglevel e s host :
  answers env (length (reqs s)) e (usage_url e)
    (Unmarshal_DatastoreResponse env) {| DatastoreResponse_Data := [] |} ->
  answers env (length (reqs s) + 1) e (node_url e)
    (Unmarshal_HostResponse env) host ->
  runs (collectFromAPI env loglevel e) s (Ok tt)
    (host_samples (HostResponse_Data host))
    [api_request e (usage_url e); api_request e (node_url e)]
  /\ ch (Collect env loglevel e s)
     = ch s ++ host_samples (HostResponse_Data host) ++ [up_sample 1].
Proof.
  intros Hu Hn.
  assert (runs (collectFromAPI env loglevel e) s (Ok tt)
            (host_samples (HostResponse_Data host))
            [api_request e (usage_url e); api_request e (node_url e)]) as Hrun.
  { eapply runs_ext; [apply collectFromAPI_fetch|].
    pose proof (runs_fetch env loglevel "" e (usage_url e)
                  (Unmarshal_DatastoreResponse env) s) as F.
    apply (answers_outcome _ _ "") in Hu as O. rewrite O in F.
    rewrite (answers_requests _ _ _ _ _ _ Hu) in F.
    eapply (runs_bind_Ok_eq _ _ _ _ _ [] _ _ [_]);
      [exact F| |reflexivity|reflexivity].
    intros s1 _ R1. cbn [DatastoreResponse_Data for_range].
    eapply (runs_bind_Ok_eq _ _ _ tt _ [] [] _ _);
      [apply runs_ret| |reflexivity|reflexivity].
    intros s2 _ R2. rewrite app_nil_r in R2.
    pose proof (getNodeMetrics_runs env loglevel e s2) as N. cbv zeta in N.
    rewrite R2, R1, length_app in N. cbn [length] in N.
    apply (answers_outcome _ _ "") in Hn as O2. rewrite O2 in N.
    by rewrite (answers_requests _ _ _ _ _ _ Hn) in N. }
  split; [exact Hrun|].
  destruct Hrun as (s1 & E1 & C1 & _).
  destruct (Collect_unfold env loglevel e s) as (C & _). cbv zeta in C.
  rewrite E1 in C. cbn [fst snd] in C. by rewrite C, C1, <- app_assoc.
Qed.

(** X12: a datastore whose namespace listing names no namespace (it is
    empty, or holds the root namespace, the empty name, only) costs one
    request: the datastore collector sends the three gauges, asks for the
    namespace listing, asks for no snapshot listing, and returns [nil]. *)
Theorem getDatastoreMetric_without_named_namespaces
    env loglevel e datastore s response :
  answers env (length (reqs s)) e (namespace_url e (Store datastore))
    (Unmarshal_NamespaceResponse env) response ->
  Forall (fun entry => ns entry = "") (NamespaceResponse_Data response) ->
  runs (getDatastoreMetric env loglevel e datastore) s (Ok tt)
    (datastore_samples datastore)
    [api_request e (namespace_url e (Store datastore))].
Proof.
  intros Hans Hroot.
  assert (named (NamespaceResponse_Data response) = []) as Hnamed.
  { unfold named. induction Hroot as [|x l Hx _ IH]; [done|].
    rewrite fmap_cons, filter_cons, decide_False by auto. exact IH. }
  destruct (getDatastoreMetric_prefix env loglevel e datastore s)
    as (s1 & C1 & R1 & E).
  pose proof (runs_fetch env loglevel "--" e
                (namespace_url e (Store datastore))
                (Unmarshal_NamespaceResponse env) s1) as F.
  rewrite R1 in F. apply (answers_outcome _ _ "--") in Hans as O.
  rewrite O, (answers_requests _ _ _ _ _ _ Hans) in F.
  destruct F as (s2 & E2 & C2 & R2).
  exists s2. rewrite E, (bind_Ok _ _ _ _ _ E2), Hnamed.
  by rewrite C2, R2, C1, R1, app_nil_r.
Qed.

(** ** The log level *)

Section Agree.

Lemma same_effects_refl s : same_effects s s.
Proof. by split. Qed.

Lemma agree_ext {A} (m1 m1' m2 m2' : M A) :
  (forall s, m1 s = m1' s) -> (forall s, m2 s = m2' s) ->
  agree m1' m2' -> agree m1 m2.
Proof. intros E1 E2 H s s' Hs. rewrite E1, E2. by apply H. Qed.

Lemma agree_ret {A} (a : A) : agree (ret a) (ret a).
Proof. by intros s s' Hs. Qed.

Lemma agree_send m : agree (send m) (send m).
Proof. intros s s' [C R]. repeat split; simpl; congruence. Qed.

Lemma agree_range_map env m : agree (range_map env m) (range_map env m).
Proof. intros s s' [C R]. unfold range_map. simpl. by rewrite R. Qed.

Lemma agree_bind {A B} (m1 m2 : M A) (k1 k2 : A -> M B) :
  agree m1 m2 -> (forall a, agree (k1 a) (k2 a)) ->
  agree (bind m1 k1) (bind m2 k2).
Proof.
  intros Hm Hk s s' Hs. destruct (Hm s s' Hs) as [Hr Hs1]. unfold bind.
  destruct (m1 s) as [[a|err] s1], (m2 s') as [[a'|err'] s1'];
    simpl in Hr; simplify_eq; [by apply Hk|done].
Qed.

Lemma agree_for_range {A} (l : list A) (body1 body2 : A -> M unit) :
  (forall x, agree (body1 x) (body2 x)) ->
  agree (for_range l body1) (for_range l body2).
Proof.
  intros H. induction l; simpl; [apply agree_ret|]. by apply agree_bind.
Qed.

(** Steps that only write to the log agree, whatever they write. *)
Lemma agree_when_log c1 c2 (m1 m2 : M unit) :
  (forall s, exists l,
      m1 s = (Ok tt, {| ch := ch s; reqs := reqs s; logs := l |})) ->
  (forall s, exists l,
      m2 s = (Ok tt, {| ch := ch s; reqs := reqs s; logs := l |})) ->
  agree (when c1 m1) (when c2 m2).
Proof.
  intros H1 H2 s s' [C R].
  destruct (when_silent c1 m1 s (H1 s)) as (s1 & -> & C1 & R1).
  destruct (when_silent c2 m2 s' (H2 s')) as (s2 & -> & C2 & R2).
  repeat split; simpl; congruence.
Qed.

Lemma agree_fetch {A} env l1 l2 dashes e url (decode : string -> option A) :
  agree (fetch env l1 dashes e url decode) (fetch env l2 dashes e url decode).
Proof.
  intros s s' [C R].
  destruct (fetch_run env l1 dashes e url decode s) as (s1 & -> & C1 & R1).
  destruct (fetch_run env l2 dashes e url decode s') as (s2 & -> & C2 & R2).
  rewrite R. repeat split; simpl; congruence.
Qed.

Context (env : Env) (l1 l2 : string) (e : Exporter).

Lemma getNamespaceMetric_agree datastore namespace :
  agree (getNamespaceMetric env l1 e datastore namespace)
        (getNamespaceMetric env l2 e datastore namespace).
Proof.
  eapply agree_ext; [apply getNamespaceMetric_fetch..|].
  apply agree_bind; [apply agree_when_log; by eexists|intros _].
  apply agree_bind; [apply agree_fetch|intros response].
  apply agree_bind; [apply agree_send|intros _].
  apply agree_bind; [apply agree_range_map|intros entries].
  apply agree_for_range. intros [vmName count]. apply agree_send.
Qed.

Lemma getDatastoreMetric_agree datastore :
  agree (getDatastoreMetric env l1 e datastore)
        (getDatastoreMetric env l2 e datastore).
Proof.
  eapply agree_ext; [apply getDatastoreMetric_fetch..|].
  apply agree_bind; [apply agree_when_log; by eexists|intros _].
  do 3 (apply agree_bind; [apply agree_send|intros _]).
  apply agree_bind; [apply agree_fetch|intros response].
  apply agree_for_range. intros namespace.
  case_bool_decide; [apply agree_ret|apply getNamespaceMetric_agree].
Qed.

Lemma getNodeMetrics_agree :
  agree (getNodeMetrics env l1 e) (getNodeMetrics env l2 e).
Proof.
  eapply agree_ext; [apply getNodeMetrics_fetch..|].
  apply agree_bind; [apply agree_fetch|intros response].
  apply agree_for_range. intros m. apply agree_send.
Qed.

Lemma collectFromAPI_agree :
  agree (collectFromAPI env l1 e) (collectFromAPI env l2 e).
Proof.
  eapply agree_ext; [apply collectFromAPI_fetch..|].
  apply agree_bind; [apply agree_fetch|intros response].
  apply agree_bind; [|intros _; apply getNodeMetrics_agree].
  apply agree_for_range. intros datastore. apply getDatastoreMetric_agree.
Qed.

End Agree.

(** X13: the log level changes what is logged and nothing else: under any
    two values of the [loglevel] flag, a scrape returns the same result,
    sends the same samples and issues the same requests. *)
Theorem loglevel_changes_only_the_log env loglevel loglevel' e s :
  (collectFromAPI env loglevel e s).1 = (collectFromAPI env loglevel' e s).1
  /\ ch (Collect env loglevel e s) = ch (Collect env loglevel' e s)
  /\ reqs (Collect env loglevel e s) = reqs (Collect env loglevel' e s).
Proof.
  destruct (collectFromAPI_agree env loglevel loglevel' e s s
              (same_effects_refl s)) as (Hr & Hc & Hq).
  destruct (Collect_unfold env loglevel e s) as (C & R & _).
  destruct (Collect_unfold env loglevel' e s) as (C' & R' & _).
  cbv zeta in *. by rewrite C, C', R, R', Hr, Hc, Hq.
Qed.

Section Logging.

Context (P : list logline -> Prop).
Context (P_nil : P []) (P_app : forall l k, P l -> P k -> P (l ++ k)).

Lemma logging_ext {A} (m m' : M A) :
  (forall s, m s = m' s) -> logging P m' -> logging P m.
Proof. intros E H s. rewrite E. apply H. Qed.

Lemma logging_none {A} (m : M A) :
  (forall s, logs (m s).2 = logs s) -> logging P m.
Proof. intros E s. exists []. by rewrite E, app_nil_r. Qed.

Lemma logging_log line : P [line] -> logging P (log line).
Proof. intros H s. by exists [line]. Qed.

Lemma logging_bind {A B} (m : M A) (k : A -> M B) :
  logging P m -> (forall a, logging P (k a)) -> logging P (bind m k).
Proof.
  intros Hm Hk s. destruct (Hm s) as (l & E & Hl). unfold bind.
  destruct (m s) as [[a|err] s1]; simpl in *; [|eauto].
  destruct (Hk a s1) as (k' & E' & Hk'). exists (l ++ k').
  rewrite E', E, app_assoc. auto.
Qed.

Lemma logging_when c (m : M unit) :
  (c = true -> logging P m) -> logging P (when c m).
Proof. destruct c; [auto|]. intros _. by apply logging_none. Qed.

Lemma logging_for_range {A} (l : list A) (body : A -> M unit) :
  (forall x, logging P (body x)) -> logging P (for_range l body).
Proof.
  intros H. induction l; simpl; [by apply logging_none|].
  by apply logging_bind.
Qed.

Lemma logging_fetch {A} env loglevel dashes e url (decode : string -> option A) :
  (debug loglevel = true -> forall l, P l) ->
  logging P (fetch env loglevel dashes e url decode).
Proof.
  intros HP. unfold fetch.
  apply logging_bind; [by apply logging_none; intros s;
                         unfold http_NewRequest; destruct (NewRequest_accepts _ _ _)|].
  intros req. cbv zeta.
  apply logging_bind.
  { apply logging_when. intros Hd.
    apply logging_bind; [|intros _]; apply logging_log; auto. }
  intros _. apply logging_bind.
  { apply logging_none. intros s. unfold client_Do.
    by destruct (Do _ _ _). }
  intros resp. apply logging_bind.
  { apply logging_none. intros s. by destruct (Body resp). }
  intros body. case_bool_decide; [by apply logging_none|].
  apply logging_bind.
  { apply logging_when. intros Hd. apply logging_log; auto. }
  intros _. apply logging_none. intros s. unfold json_Unmarshal.
  by destruct (decode body).
Qed.

Context (env : Env) (loglevel : string) (e : Exporter).
Context (P_debug : debug loglevel = true -> forall l, P l).

Lemma getNamespaceMetric_logging datastore namespace :
  logging P (getNamespaceMetric env loglevel e datastore namespace).
Proof.
  eapply logging_ext; [apply getNamespaceMetric_fetch|].
  apply logging_bind.
  { apply logging_when. intros Hd. apply logging_log; auto. }
  intros _. apply logging_bind; [by apply logging_fetch|intros response].
  apply logging_bind; [by apply logging_none|intros _].
  apply logging_bind; [by apply logging_none|intros entries].
  apply logging_for_range. intros [vmName count]. by apply logging_none.
Qed.

Lemma getDatastoreMetric_logging datastore :
  logging P (getDatastoreMetric env loglevel e datastore).
Proof.
  eapply logging_ext; [apply getDatastoreMetric_fetch|].
  apply logging_bind.
  { apply logging_when. intros Hd.
    repeat (apply logging_bind; [|intros _]); apply logging_log; auto. }
  intros _. do 3 (apply logging_bind; [by apply logging_none|intros _]).
  apply logging_bind; [by apply logging_fetch|intros response].
  apply logging_for_range. intros namespace.
  case_bool_decide; [by apply logging_none|apply getNamespaceMetric_logging].
Qed.

Lemma getNodeMetrics_logging : logging P (getNodeMetrics env loglevel e).
Proof.
  eapply logging_ext; [apply getNodeMetrics_fetch|].
  apply logging_bind; [by apply logging_fetch|intros response].
  apply logging_for_range. intros m. by apply logging_none.
Qed.

Lemma collectFromAPI_logging : logging P (collectFromAPI env loglevel e).
Proof.
  eapply logging_ext; [apply collectFromAPI_fetch|].
  apply logging_bind; [by apply logging_fetch|intros response].
  apply logging_bind; [|intros _; apply getNodeMetrics_logging].
  apply logging_for_range. intros datastore. apply getDatastoreMetric_logging.
Qed.

End Logging.

(** X14: unless the log level is [debug], a scrape logs nothing but the
    error that made it fail: nothing at all when it succeeds, and one line,
    the error, when it fails. *)
Theorem Collect_logs_only_the_error env loglevel e s :
  loglevel ≠ "debug" ->
  logs (Collect env loglevel e s)
  = logs s ++ match (collectFromAPI env loglevel e s).1 with
              | Ok _ => []
              | Err err => [Println err]
              end.
Proof.
  intros Hl.
  destruct (Collect_unfold env loglevel e s) as (_ & _ & L). cbv zeta in L.
  destruct (collectFromAPI_logging (fun l => l = []) eq_refl) with
    (env := env) (loglevel := loglevel) (e := e) (s := s) as (l & E & ->).
  - by intros l k -> ->.
  - unfold debug. by rewrite bool_decide_eq_false_2.
  - rewrite L, E. by rewrite app_nil_r.
Qed.

Lemma fetch_debug_logs {A} env loglevel dashes e url
    (decode : string -> option A) s :
  loglevel = "debug" -> NewRequest_accepts env "GET" url = true ->
  exists l,
    logs (fetch env loglevel dashes e url decode s).2
    = logs s
      ++ Printf ("DEBUG: " +:+ dashes +:+ "Request URL: %s") [AString url]
      :: Printf ("DEBUG: " +:+ dashes +:+ "Request Header: %s")
           [AHeader {[ "Authorization" := [authorizationHeader e] ]}]
      :: l.
Proof.
  intros -> Hacc.
  unfold fetch, http_NewRequest, when, debug, bind, client_Do, log, ret,
    io_ReadAll, json_Unmarshal, fail.
  rewrite Hacc. simpl.
  destruct (Do _ _ _) as [resp|]; simpl;
    [|eexists; by rewrite <- app_assoc].
  destruct (Body resp) as [body|]; simpl;
    [|eexists; by rewrite <- app_assoc].
  destruct (bool_decide (StatusCode resp ≠ 200)); simpl;
    [eexists; by rewrite <- app_assoc|].
  destruct (decode body); simpl; eexists; by rewrite <- !app_assoc.
Qed.

(** X15: at the log level [debug], a scrape writes the credential to the
    log: as soon as the URL of the usage listing is accepted, the log of
    the scrape holds the line with the request header, that is, with the
    [Authorization] value of the exporter, token included. *)
Theorem Collect_debug_logs_the_token env e s :
  NewRequest_accepts env "GET" (usage_url e) = true ->
  Printf "DEBUG: Request Header: %s"
    [AHeader {[ "Authorization" := [authorizationHeader e] ]}]
  ∈ logs (Collect env "debug" e s).
Proof.
  intros Hacc.
  destruct (Collect_unfold env "debug" e s) as (_ & _ & L). cbv zeta in L.
  rewrite L, collectFromAPI_fetch. apply elem_of_app. left.
  destruct (fetch_debug_logs env "debug" "" e (usage_url e)
              (Unmarshal_DatastoreResponse env) s eq_refl Hacc) as (l & E).
  unfold usage_url in *.
  destruct (fetch env "debug" "" e (endpoint e +:+ datastoreUsageApi)
              (Unmarshal_DatastoreResponse env) s)
    as [[response|err] s1] eqn:Ef; cbn [snd] in E.
  - rewrite (bind_Ok _ _ _ _ _ Ef).
    assert (logging (fun _ => True)
              (for_range (DatastoreResponse_Data response)
                 (fun datastore => getDatastoreMetric env "debug" e datastore) ;;
               getNodeMetrics env "debug" e)) as G.
    { apply logging_bind; [done| |intros _; by apply getNodeMetrics_logging].
      apply logging_for_range; [done|done|]. intros datastore.
      by apply getDatastoreMetric_logging. }
    destruct (G s1) as (k & -> & _).
    rewrite E. apply elem_of_app. left. apply elem_of_app. right.
    right. left.
  - rewrite (bind_Err _ _ _ _ _ Ef). cbn [snd].
    rewrite E. apply elem_of_app. right. right. left.
Qed.

(** ** Start-up, continued *)

Lemma ParseBool_spec str :
  Main.ParseBool str
  = if bool_decide (str ∈ true_strings) then Some true
    else if bool_decide (str ∈ false_strings) then Some false
    else None.
Proof. reflexivity. Qed.

Lemma apply_environment_insecure environ parsed :
  Main.insecure (Main.apply_environment environ parsed)
  = if bool_decide (Main.Getenv environ "PBS_INSECURE" ≠ "")
    then Main.Getenv environ "PBS_INSECURE" else Main.insecure parsed.
Proof.
  unfold Main.apply_environment. cbv zeta. through_overrides. reflexivity.
Qed.

Lemma apply_environment_timeout environ parsed :
  Main.timeout (Main.apply_environment environ parsed)
  = if bool_decide (Main.Getenv environ "PBS_TIMEOUT" ≠ "")
    then Main.Getenv environ "PBS_TIMEOUT" else Main.timeout parsed.
Proof.
  unfold Main.apply_environment. cbv zeta. through_overrides. reflexivity.
Qed.

(** X16: what the environment holds is what gets parsed.  A value of
    [PBS_INSECURE] that [strconv.ParseBool] does not read ends [main] with
    the fatal line about [insecure], whatever the flags and whatever the
    timeout; with a value it reads, a value of [PBS_TIMEOUT] that
    [time.ParseDuration] does not read ends [main] with the fatal line
    about the timeout. *)
Theorem main_stops_on_unreadable_environment
    (ParseDuration : string -> option Z) (environ : gmap string string)
    parsed :
  (forall v,
     environ !! "PBS_INSECURE" = Some v -> v ≠ "" ->
     v ∉ true_strings ++ false_strings ->
     Main.main ParseDuration environ parsed
     = Main.Fatalf "ERROR: Unable to parse insecure: %s" v)
  /\ (forall v t,
        environ !! "PBS_INSECURE" = Some v ->
        v ∈ true_strings ++ false_strings ->
        environ !! "PBS_TIMEOUT" = Some t -> t ≠ "" ->
        ParseDuration t = None ->
        Main.main ParseDuration environ parsed
        = Main.Fatalf "ERROR: Unable to parse timeout: %s" t).
Proof.
  split.
  - intros v Hv Hne Hnot. unfold Main.main.
    rewrite apply_environment_insecure, (Getenv_set _ _ _ Hv).
    rewrite bool_decide_eq_true_2 by done. rewrite ParseBool_spec.
    rewrite elem_of_app in Hnot.
    rewrite !bool_decide_eq_false_2 by tauto. done.
  - intros v t Hv Hin Ht Hne Hdur. unfold Main.main.
    assert (v ≠ "") as Hv0.
    { intros ->. vm_compute in Hin.
      repeat (apply elem_of_cons in Hin as [Hin|Hin]; [discriminate Hin|]).
      by apply elem_of_nil in Hin. }
    rewrite apply_environment_insecure, (Getenv_set _ _ _ Hv).
    rewrite bool_decide_eq_true_2 by done.
    rewrite apply_environment_timeout, (Getenv_set _ _ _ Ht).
    rewrite bool_decide_eq_true_2 by done. rewrite ParseBool_spec, Hdur.
    apply elem_of_app in Hin as [Hin|Hin].
    + by rewrite bool_decide_eq_true_2.
    + destruct (bool_decide (v ∈ true_strings)); [done|].
      by rewrite bool_decide_eq_true_2.
Qed.

(** X17: certificates go unchecked for six spellings only.  When [main]
    gets to serve, [InsecureSkipVerify] is set exactly when the value of
    [insecure] it works with (the environment's, if set, else the flag's)
    is one of [1], [t], [T], [true], [TRUE], [True]; and then, or else, the
    value is one of the twelve strings [strconv.ParseBool] reads. *)
Theorem main_skips_verification_only_for_true
    (ParseDuration : string -> option Z) (environ : gmap string string)
    parsed srv :
  Main.main ParseDuration environ parsed = Main.Serving srv ->
  let value := Main.insecure (Main.apply_environment environ parsed) in
  (Main.InsecureSkipVerify srv = true <-> value ∈ true_strings)
  /\ (Main.InsecureSkipVerify srv = false -> value ∈ false_strings).
Proof.
  unfold Main.main. cbv zeta. rewrite ParseBool_spec. intros H.
  case_bool_decide as Ht.
  - destruct (ParseDuration _); [|done]. injection H as <-. simpl.
    split; [done|discriminate].
  - case_bool_decide as Hf; [|done].
    destruct (ParseDuration _); [|done]. injection H as <-. simpl.
    split; [split; [discriminate|done]|done].
Qed.

(** ** The groups of the namespace collector *)

(** X18: the map of the namespace collector has no empty group and no
    group larger than the listing: for a listing no longer than an [int]
    can count, every identifier in the map occurs in the listing, and its
    count is at least 1 and at most the length of the listing; and every
    identifier of the listing is in the map. *)
Theorem count_vms_has_no_empty_group data :
  len data <= int_max ->
  (forall id c,
     count_vms data !! id = Some c ->
     id ∈ BackupID <$> data /\ 1 <= c <= len data)
  /\ (forall id, id ∈ BackupID <$> data -> is_Some (count_vms data !! id)).
Proof.
  intros Hlen. split.
  - intros id c. rewrite count_vms_lookup by done.
    case_decide as Hz; [done|]. intros [= <-].
    pose proof (multiplicity_le id data). split.
    + apply multiplicity_pos. lia.
    + unfold len. lia.
  - intros id Hin. rewrite count_vms_lookup by done.
    apply multiplicity_pos in Hin. rewrite decide_False by lia. eauto.
Qed.

(** * The failing scrape and the order of the calls *)

(** ** The scrape follows the order of the calls *)

Lemma follows_ext {A} (m m' : M A) s calls :
  m s = m' s -> follows m' s calls -> follows m s calls.
Proof. unfold follows. by intros ->. Qed.

Lemma follows_and_then (m : M unit) (k : unit -> M unit) s first next :
  follows m s first ->
  (forall s1, reqs s1 = reqs s ++ first.2 ->
              follows (k tt) s1 (next (length first.2))) ->
  follows (bind m k) s (and_then first next).
Proof.
  intros [H1 H2] Hk. unfold follows, and_then, bind.
  destruct (m s) as [[[]|err] s1]; simpl in H1, H2; rewrite <- H1; [|done].
  destruct (Hk s1 H2) as [H3 H4]. cbn [fst snd].
  by rewrite H3, H4, H2, app_assoc.
Qed.

Section Order.

Context (env : Env) (loglevel : string) (e : Exporter).

Lemma follows_call {A} dashes url (decode : string -> option A)
    (k : A -> M unit) next s :
  (forall a s1, reqs s1 = reqs s ++ [api_request e url] ->
                follows (k a) s1 (next a)) ->
  follows (bind (fetch env loglevel dashes e url decode) k) s
    (call env (length (reqs s)) dashes e url decode next).
Proof.
  intros Hk.
  destruct (fetch_run env loglevel dashes e url decode s) as (s1 & E & _ & R).
  unfold call, follows.
  destruct (fetch_outcome env (length (reqs s)) dashes e url decode)
    as [a|err] eqn:O.
  - rewrite (bind_Ok _ _ _ _ _ E). apply answers_outcome in O.
    rewrite (answers_requests _ _ _ _ _ _ O) in R.
    destruct (Hk a s1 R) as [H1 H2]. cbn [fst snd].
    by rewrite H1, H2, R, <- app_assoc.
  - by rewrite (bind_Err _ _ _ _ _ E).
Qed.

Lemma namespace_loop_follows datastore names s :
  follows (for_range names (getNamespaceMetric env loglevel e datastore)) s
    (snapshot_calls env e datastore (length (reqs s)) names).
Proof.
  revert s. induction names as [|name rest IH]; intros s.
  { split; simpl; [done|by rewrite app_nil_r]. }
  pose proof (getNamespaceMetric_runs env loglevel e datastore name s) as H.
  cbv zeta in H. cbn [for_range snapshot_calls]. unfold call, follows.
  destruct (fetch_outcome env (length (reqs s)) "----" e
              (snapshots_url e datastore name)
              (Unmarshal_SnapshotResponse env)) as [response|err] eqn:O.
  - apply answers_outcome in O.
    rewrite (answers_requests _ _ _ _ _ _ O) in H.
    destruct H as (s1 & E & _ & R). rewrite (bind_Ok _ _ _ _ _ E).
    destruct (IH s1) as [H1 H2]. rewrite R, length_app, Nat.add_1_r in H1, H2.
    cbn [fst snd]. by rewrite H1, H2, <- app_assoc.
  - destruct H as (s1 & E & _ & R). by rewrite (bind_Err _ _ _ _ _ E).
Qed.

Lemma getDatastoreMetric_follows datastore s :
  follows (getDatastoreMetric env loglevel e datastore) s
    (datastore_calls env e (length (reqs s)) (Store datastore)).
Proof.
  destruct (getDatastoreMetric_prefix env loglevel e datastore s)
    as (s1 & _ & R1 & E).
  unfold follows. rewrite E, <- R1.
  apply (follows_call "--" (namespace_url e (Store datastore))).
  intros response s2 R2.
  pose proof (namespace_loop_follows (Store datastore)
                (named (NamespaceResponse_Data response)) s2) as H.
  by rewrite R2, length_app, Nat.add_1_r in H.
Qed.

Lemma datastore_loop_follows datastores s :
  follows (for_range datastores (getDatastoreMetric env loglevel e)) s
    (datastores_calls env e (length (reqs s)) (Store <$> datastores)).
Proof.
  revert s. induction datastores as [|datastore rest IH]; intros s.
  { split; simpl; [done|by rewrite app_nil_r]. }
  rewrite fmap_cons. cbn [for_range datastores_calls].
  apply follows_and_then; [apply getDatastoreMetric_follows|].
  intros s1 R1. pose proof (IH s1) as H. by rewrite R1, length_app in H.
Qed.

Lemma getNodeMetrics_follows s :
  follows (getNodeMetrics env loglevel e) s
    (call env (length (reqs s)) "" e (node_url e)
       (Unmarshal_HostResponse env) (fun _ => (Ok tt, []))).
Proof.
  pose proof (getNodeMetrics_runs env loglevel e s) as H. cbv zeta in H.
  unfold call, follows.
  destruct (fetch_outcome env (length (reqs s)) "" e (node_url e)
              (Unmarshal_HostResponse env)) as [response|err] eqn:O.
  - apply answers_outcome in O.
    rewrite (answers_requests _ _ _ _ _ _ O) in H.
    destruct H as (s1 & E & _ & R). by rewrite E.
  - destruct H as (s1 & E & _ & R). by rewrite E.
Qed.

Lemma collectFromAPI_follows s :
  follows (collectFromAPI env loglevel e) s
    (scrape_calls env e (length (reqs s))).
Proof.
  eapply follows_ext; [apply collectFromAPI_fetch|].
  apply (follows_call "" (usage_url e)). intros usage s1 R1.
  apply follows_and_then.
  - pose proof (datastore_loop_follows (DatastoreResponse_Data usage) s1)
      as H.
    by rewrite R1, length_app, Nat.add_1_r in H.
  - intros s2 R2. pose proof (getNodeMetrics_follows s2) as H.
    by rewrite R2, R1, !length_app, Nat.add_1_r in H.
Qed.

(** ** The requests of a scrape that succeeds *)

Lemma snapshot_calls_Ok datastore n names :
  (snapshot_calls env e datastore n names).1 = Ok tt ->
  (snapshot_calls env e datastore n names).2
  = snapshots_request e datastore <$> names.
Proof.
  revert n. induction names as [|name rest IH]; intros n; [done|].
  cbn [snapshot_calls]. unfold call.
  destruct (fetch_outcome _ _ _ _ _ _) as [response|err]; [|done].
  cbn [fst snd]. intros Hok. by rewrite (IH _ Hok).
Qed.

Lemma datastore_calls_Ok n datastore :
  (datastore_calls env e n datastore).1 = Ok tt ->
  exists response,
    answers env n e (namespace_url e datastore)
      (Unmarshal_NamespaceResponse env) response
    /\ (datastore_calls env e n datastore).2
       = datastore_requests e datastore
           (named (NamespaceResponse_Data response)).
Proof.
  unfold datastore_calls, call.
  destruct (fetch_outcome _ _ _ _ _ _) as [response|err] eqn:O; [|done].
  cbn [fst snd]. intros Hok. exists response.
  split; [by apply answers_outcome in O|].
  by rewrite (snapshot_calls_Ok _ _ _ Hok).
Qed.

Lemma datastores_calls_Ok n datastores :
  (datastores_calls env e n datastores).1 = Ok tt ->
  exists visited,
    listed env e n datastores visited
    /\ (datastores_calls env e n datastores).2
       = datastores_requests e visited.
Proof.
  revert n. induction datastores as [|datastore rest IH]; intros n.
  { intros _. by exists []. }
  cbn [datastores_calls]. unfold and_then.
  destruct (datastore_calls env e n datastore).1 as [[]|err] eqn:O; [|done].
  destruct (datastore_calls_Ok _ _ O) as (response & Hans & Hreq).
  cbn [fst snd]. intros Hok. destruct (IH _ Hok) as (visited & Hl & Hv).
  exists ((datastore, named (NamespaceResponse_Data response)) :: visited).
  rewrite Hreq in Hl, Hv |- *. split.
  - split; [done|]. split; [by exists response|].
    unfold datastore_requests in Hl.
    by rewrite length_cons, length_fmap, Nat.add_succ_r in Hl.
  - by rewrite Hv.
Qed.

Lemma scrape_calls_Ok n :
  (scrape_calls env e n).1 = Ok tt ->
  exists usage visited,
    answers env n e (usage_url e) (Unmarshal_DatastoreResponse env) usage
    /\ listed env e (S n) (Store <$> DatastoreResponse_Data usage) visited
    /\ (scrape_calls env e n).2 = scrape_requests e visited.
Proof.
  unfold scrape_calls, call.
  destruct (fetch_outcome env n "" e (usage_url e)
              (Unmarshal_DatastoreResponse env)) as [usage|err] eqn:O; [|done].
  apply answers_outcome in O. cbn [fst snd]. unfold and_then.
  destruct (datastores_calls env e (S n) _).1 as [[]|err] eqn:D; [|done].
  destruct (datastores_calls_Ok _ _ D) as (visited & Hl & Hv).
  cbn [fst snd].
  destruct (fetch_outcome _ _ _ _ _ _) as [host|err]; [|done].
  intros _. exists usage, visited. split; [exact O|].
  split; [exact Hl|]. cbn [fst snd]. by rewrite Hv.
Qed.

End Order.

(** C2, as the code has it: the requests of a scrape are those of
    [scrape_calls], in that order and no other, and the scrape returns what
    [scrape_calls] returns.  The calls are made one at a time, each after
    the one before it has answered: the usage listing first; then, for the
    datastores of the usage listing in its order, the namespace listing of
    the datastore followed by one snapshot listing for each non-empty name
    of that namespace listing, in its order; the node status of the host
    last.  The first call that does not answer ends the scrape: its error
    is returned and no request follows its own.  A scrape that succeeds
    has issued the whole sequence. *)
Theorem Collect_requests_in_order env loglevel e s :
  (collectFromAPI env loglevel e s).1
  = (scrape_calls env e (length (reqs s))).1
  /\ reqs (Collect env loglevel e s)
     = reqs s ++ (scrape_calls env e (length (reqs s))).2
  /\ ((collectFromAPI env loglevel e s).1 = Ok tt ->
      exists usage visited,
        answers env (length (reqs s)) e (usage_url e)
          (Unmarshal_DatastoreResponse env) usage
        /\ listed env e (S (length (reqs s)))
             (Store <$> DatastoreResponse_Data usage) visited
        /\ reqs (Collect env loglevel e s)
           = reqs s ++ scrape_requests e visited).
Proof.
  destruct (Collect_unfold env loglevel e s) as (_ & R & _). cbv zeta in R.
  destruct (collectFromAPI_follows env loglevel e s) as [H1 H2].
  rewrite R, H1, H2. split; [done|]. split; [done|]. intros Hok.
  destruct (scrape_calls_Ok env e _ Hok) as (usage & visited & Hu & Hl & Hv).
  exists usage, visited. by rewrite Hv.
Qed.

(** ** The samples of a scrape that fails *)

Lemma datastore_samples_storage datastore :
  Forall storage_sample (datastore_samples datastore).
Proof.
  unfold storage_sample. repeat constructor;
    simpl; repeat (apply elem_of_cons; first [by left|right]).
Qed.

Lemma snapshot_sample_storage m : snapshot_sample m -> storage_sample m.
Proof.
  unfold storage_sample. intros [-> | ->];
    repeat (apply elem_of_cons; first [by left|right]).
Qed.

Section Failure.

Context (env : Env) (loglevel : string) (e : Exporter).

(** What the loop over the datastores has sent when it ends, however it
    ends. *)
Lemma datastore_loop_sends datastores s :
  exists d,
    ch (for_range datastores (getDatastoreMetric env loglevel e) s).2
    = ch s ++ d
    /\ Forall storage_sample d
    /\ match datastores with
       | [] => d = []
       | datastore :: _ => datastore_samples datastore `prefix_of` d
       end.
Proof.
  revert s. induction datastores as [|datastore rest IH]; intros s.
  { exists []. simpl. by rewrite app_nil_r. }
  destruct (getDatastoreMetric_sends datastore env loglevel e s)
    as (d & Hd & Hall).
  assert (Forall storage_sample (datastore_samples datastore ++ d)) as Hs.
  { apply Forall_app. split; [apply datastore_samples_storage|].
    eapply Forall_impl; [exact Hall|]. apply snapshot_sample_storage. }
  cbn [for_range]. unfold bind.
  destruct (getDatastoreMetric env loglevel e datastore s) as [[[]|err] s1];
    cbn [snd] in Hd.
  - destruct (IH s1) as (d' & Hd' & Hall' & _).
    exists ((datastore_samples datastore ++ d) ++ d').
    rewrite Hd', Hd, <- !app_assoc. split; [done|]. split.
    + rewrite app_assoc. by apply Forall_app.
    + by eexists.
  - exists (datastore_samples datastore ++ d). cbn [snd].
    split; [done|]. split; [done|]. by eexists.
Qed.

(** What is on the channel after [collectFromAPI] returned an error. *)
Lemma collectFromAPI_failure_samples s err :
  (collectFromAPI env loglevel e s).1 = Err err ->
  exists partial,
    ch (collectFromAPI env loglevel e s).2 = ch s ++ partial
    /\ Forall storage_sample partial
    /\ match fetch_outcome env (length (reqs s)) "" e (usage_url e)
               (Unmarshal_DatastoreResponse env) with
       | Ok usage =>
           match DatastoreResponse_Data usage with
           | [] => partial = []
           | datastore :: _ => datastore_samples datastore `prefix_of` partial
           end
       | Err _ => partial = []
       end.
Proof.
  rewrite collectFromAPI_fetch.
  destruct (fetch_run env loglevel "" e (usage_url e)
              (Unmarshal_DatastoreResponse env) s) as (s1 & E1 & C1 & _).
  unfold usage_url in *. unfold bind at 1 3. rewrite E1.
  destruct (fetch_outcome _ _ _ _ _ _) as [usage|err1].
  - destruct (datastore_loop_sends (DatastoreResponse_Data usage) s1)
      as (d & Hd & Hall & Hpre).
    unfold bind.
    destruct (for_range _ _ s1) as [[[]|err2] s2]; cbn [snd] in Hd.
    + pose proof (getNodeMetrics_runs env loglevel e s2) as N.
      cbv zeta in N. destruct N as (s3 & E3 & C3 & _). rewrite E3.
      destruct (fetch_outcome _ _ _ _ _ _) as [host|err3]; [done|].
      intros _. exists d. cbn [snd]. by rewrite C3, app_nil_r, Hd, C1.
    + intros _. exists d. cbn [snd]. by rewrite Hd, C1.
  - intros _. exists []. cbn [snd]. by rewrite C1, app_nil_r.
Qed.

End Failure.

(** C1, as the code has it: a scrape in which a nested fetch fails sends
    exactly one [up] sample, with the value 0, as its last sample, and logs
    the error last; but the samples the collectors had sent before the
    failure stay on the channel in front of it.  They are gauges of the
    datastore collector and of the namespace collector, never of the host
    and never [up]; when the usage listing names a datastore they start
    with the three gauges of its first datastore.  So [up = 0] is the only
    sample of the failed scrape exactly when the usage listing is not
    fetched and decoded or names no datastore. *)
Theorem Collect_failed_scrape env loglevel e s err :
  (collectFromAPI env loglevel e s).1 = Err err ->
  exists partial,
    ch (Collect env loglevel e s) = ch s ++ partial ++ [up_sample 0]
    /\ Forall collector_sample partial
    /\ Forall storage_sample partial
    /\ last (logs (Collect env loglevel e s)) = Some (Println err)
    /\ (forall usage datastore rest,
          answers env (length (reqs s)) e (usage_url e)
            (Unmarshal_DatastoreResponse env) usage ->
          DatastoreResponse_Data usage = datastore :: rest ->
          datastore_samples datastore `prefix_of` partial)
    /\ (partial = [] <->
        forall usage,
          answers env (length (reqs s)) e (usage_url e)
            (Unmarshal_DatastoreResponse env) usage ->
          DatastoreResponse_Data usage = []).
Proof.
  intros Herr.
  destruct (Collect_unfold env loglevel e s) as (C & _ & L).
  cbv zeta in C, L. rewrite Herr in C, L.
  destruct (collectFromAPI_keeps env loglevel e s)
    as (partial & dreq & Hch & _ & Hall & _).
  destruct (collectFromAPI_failure_samples env loglevel e s err Herr)
    as (partial' & Hch' & Hstorage & Hfirst).
  rewrite Hch in Hch'. apply app_inv_head in Hch'. subst partial'.
  exists partial. rewrite C, L, Hch, <- app_assoc, last_snoc.
  split; [done|]. split; [done|]. split; [done|]. split; [done|].
  destruct (fetch_outcome env (length (reqs s)) "" e (usage_url e)
              (Unmarshal_DatastoreResponse env)) as [usage|err1] eqn:O.
  - apply answers_outcome in O as Hans. split.
    + intros usage' datastore rest Hans' Hdata.
      apply (answers_outcome _ _ "") in Hans'. rewrite O in Hans'.
      injection Hans' as <-. by rewrite Hdata in Hfirst.
    + split.
      * intros -> usage' Hans'.
        apply (answers_outcome _ _ "") in Hans'. rewrite O in Hans'.
        injection Hans' as <-.
        destruct (DatastoreResponse_Data usage) as [|datastore rest];
          [done|].
        destruct Hfirst as [k Hk]. discriminate Hk.
      * intros Hempty. by rewrite (Hempty usage Hans) in Hfirst.
  - split.
    + intros usage datastore rest Hans.
      apply (answers_outcome _ _ "") in Hans. by rewrite O in Hans.
    + split; [|done]. intros _ usage Hans.
      apply (answers_outcome _ _ "") in Hans. by rewrite O in Hans.
Qed.

(** * The further theorems at work on the test backends *)

Lemma Collect_success_samples_witness :
  exists usage blocks n host,
    answers healthy (length (reqs State0)) pbs (usage_url pbs)
      (Unmarshal_DatastoreResponse healthy) usage
    /\ Forall2 datastore_block (DatastoreResponse_Data usage) blocks
    /\ answers healthy n pbs (node_url pbs) (Unmarshal_HostResponse healthy)
         host
    /\ ch (Collect healthy "info" pbs State0)
       = ch State0 ++ concat blocks ++ host_samples (HostResponse_Data host)
         ++ [up_sample 1].
Proof.
  apply (Collect_success_samples healthy "info" pbs State0).
  vm_compute. reflexivity.
Defined.

Lemma datastore_gauges_are_not_labelled_witness :
  exists usage samples,
    answers two_datastores (length (reqs State0)) pbs (usage_url pbs)
      (Unmarshal_DatastoreResponse two_datastores) usage
    /\ ch (Collect two_datastores "info" pbs State0) = ch State0 ++ samples
    /\ named_samples "pbs_available" samples
       = (fun ds => MustNewConstMetric available GaugeValue
                      (float64_of_int (Avail ds)) [])
         <$> DatastoreResponse_Data usage.
Proof.
  destruct (datastore_gauges_are_not_labelled two_datastores "info" pbs
              State0) as (usage & samples & Hu & Hch & Ha & _).
  { vm_compute. reflexivity. }
  exists usage, samples. split; [exact Hu|]. split; [exact Hch|exact Ha].
Defined.

Lemma Collect_without_datastores_witness :
  runs (collectFromAPI no_datastores "info" pbs) State0 (Ok tt)
    (host_samples tank_host)
    [api_request pbs (usage_url pbs); api_request pbs (node_url pbs)]
  /\ ch (Collect no_datastores "info" pbs State0)
     = ch State0 ++ host_samples tank_host ++ [up_sample 1].
Proof.
  apply (Collect_without_datastores no_datastores "info" pbs State0
           {| HostResponse_Data := tank_host |}).
  - split; [reflexivity|]. exists (ok "usage"), "usage". vm_compute. auto.
  - split; [reflexivity|]. exists (ok "status"), "status". vm_compute. auto.
Defined.

Lemma getDatastoreMetric_without_named_namespaces_witness :
  runs (getDatastoreMetric two_datastores "info" pbs pool) State0 (Ok tt)
    (datastore_samples pool)
    [api_request pbs (namespace_url pbs (Store pool))].
Proof.
  apply (getDatastoreMetric_without_named_namespaces two_datastores "info"
           pbs pool State0 root_only).
  - split; [reflexivity|]. exists (ok "root"), "root". vm_compute. auto.
  - repeat constructor.
Defined.

Lemma refused_url_sends_no_request_witness :
  reqs (Collect strict_urls "info" pbs State0) = reqs State0
  /\ ch (Collect strict_urls "info" pbs State0) = ch State0 ++ [up_sample 0].
Proof.
  destruct (refused_url_sends_no_request strict_urls "info" pbs State0)
    as (H & _).
  destruct H as (_ & R & C); [reflexivity|]. split; [exact R|exact C].
Defined.

Lemma unanswered_request_is_not_retried_witness :
  reqs (Collect unreachable_server "info" pbs State0)
  = reqs State0 ++ [api_request pbs (usage_url pbs)]
  /\ ch (Collect unreachable_server "info" pbs State0)
     = ch State0 ++ [up_sample 0].
Proof.
  destruct (unanswered_request_is_not_retried unreachable_server "info" pbs
              State0) as (H & _).
  destruct H as (_ & R & C); [|split; [exact R|exact C]].
  split; [reflexivity|]. vm_compute. reflexivity.
Defined.

Lemma undecodable_body_fails_the_call_witness :
  runs (collectFromAPI garbled "info" pbs) State0
    (Err (ErrUnmarshal "garbage")) [] [api_request pbs (usage_url pbs)].
Proof.
  destruct (undecodable_body_fails_the_call garbled "info" pbs State0
              "garbage") as (H & _).
  destruct H as (Hrun & _); [|exact Hrun].
  split; [reflexivity|]. exists (ok "garbage"). vm_compute. auto.
Defined.

Lemma Collect_logs_only_the_error_witness :
  logs (Collect namespaces_down "info" pbs State0)
  = logs State0
    ++ match (collectFromAPI namespaces_down "info" pbs State0).1 with
       | Ok _ => []
       | Err err => [Println err]
       end.
Proof.
  apply (Collect_logs_only_the_error namespaces_down "info" pbs State0).
  discriminate.
Defined.

Lemma Collect_debug_logs_the_token_witness :
  Printf "DEBUG: Request Header: %s"
    [AHeader {[ "Authorization" := [authorizationHeader pbs] ]}]
  ∈ logs (Collect healthy "debug" pbs State0).
Proof.
  apply (Collect_debug_logs_the_token healthy pbs State0). reflexivity.
Defined.

Lemma main_stops_on_unreadable_environment_witness :
  Main.main (fun _ => Some 5000000000) {[ "PBS_INSECURE" := "yes" ]}
    Main.defaults
  = Main.Fatalf "ERROR: Unable to parse insecure: %s" "yes".
Proof.
  destruct (main_stops_on_unreadable_environment (fun _ => Some 5000000000)
              {[ "PBS_INSECURE" := "yes" ]} Main.defaults) as (H & _).
  apply H; [vm_compute; reflexivity|discriminate|].
  unfold true_strings, false_strings. cbn [app].
  rewrite !elem_of_cons, elem_of_nil.
  intros H'. repeat (destruct H' as [H'|H']; [discriminate H'|]). exact H'.
Defined.

Lemma main_skips_verification_only_for_true_witness :
  Main.InsecureSkipVerify insecure_server = true
  <-> Main.insecure
        (Main.apply_environment {[ "PBS_INSECURE" := "true" ]} Main.defaults)
      ∈ true_strings.
Proof.
  destruct (main_skips_verification_only_for_true
              (fun _ => Some 5000000000) {[ "PBS_INSECURE" := "true" ]}
              Main.defaults insecure_server) as (H & _).
  { vm_compute. reflexivity. }
  exact H.
Defined.

Lemma count_vms_has_no_empty_group_witness :
  "100" ∈ BackupID <$> [ {| BackupID := "100" |}; {| BackupID := "100" |};
                         {| BackupID := "101" |} ]
  /\ 1 <= 2 <= 3.
Proof.
  destruct (count_vms_has_no_empty_group
              [ {| BackupID := "100" |}; {| BackupID := "100" |};
                {| BackupID := "101" |} ]) as (H & _).
  { vm_compute. discriminate. }
  apply (H "100" 2). vm_compute. reflexivity.
Defined.

(** * The failing scrape and the order of the calls, on the test backends *)

(** The namespace listing answers 500: the gauges of [tank] stay in front
    of [up = 0].  No datastore and the node status answers 500: [up = 0] is
    the only sample. *)
Lemma Collect_failed_scrape_witness :
  (exists partial,
     ch (Collect namespaces_down "info" pbs State0)
     = ch State0 ++ partial ++ [up_sample 0]
     /\ Forall storage_sample partial
     /\ datastore_samples tank `prefix_of` partial
     /\ partial ≠ [])
  /\ ch (Collect no_datastores_host_down "info" pbs State0) = [up_sample 0].
Proof.
  split.
  - destruct (Collect_failed_scrape namespaces_down "info" pbs State0
                (Errorf "ERROR: --Status code %d returned from endpoint: %s"
                   500 "http://pbs:8007"))
      as (partial & Hch & _ & Hstorage & _ & Hfirst & Hempty).
    { vm_compute. reflexivity. }
    assert (answers namespaces_down (length (reqs State0)) pbs (usage_url pbs)
              (Unmarshal_DatastoreResponse namespaces_down)
              {| DatastoreResponse_Data := [tank] |}) as Hans.
    { split; [reflexivity|]. exists (ok "usage"), "usage". vm_compute. auto. }
    exists partial. split; [exact Hch|]. split; [exact Hstorage|]. split.
    + exact (Hfirst _ tank [] Hans eq_refl).
    + intros Hnil. destruct Hempty as [Hempty _].
      discriminate (Hempty Hnil _ Hans).
  - destruct (Collect_failed_scrape no_datastores_host_down "info" pbs State0
                (Errorf "ERROR: Status code %d returned from endpoint: %s"
                   500 "http://pbs:8007"))
      as (partial & Hch & _ & _ & _ & _ & _ & Hempty).
    { vm_compute. reflexivity. }
    rewrite Hch, Hempty; [reflexivity|].
    intros usage (_ & resp & body & HDo & HBody & _ & Hdec).
    vm_compute in HDo. injection HDo as <-.
    simpl in HBody. injection HBody as <-.
    vm_compute in Hdec. injection Hdec as <-. reflexivity.
Defined.

(** Every call answers: the whole sequence goes out, the node status last.
    The snapshot listing of [prod] answers 500: it is the last request. *)
Lemma Collect_requests_in_order_witness :
  reqs (Collect healthy "info" pbs State0)
  = scrape_requests pbs [("tank", ["prod"; "test"])]
  /\ (exists usage visited,
        answers healthy 0 pbs (usage_url pbs)
          (Unmarshal_DatastoreResponse healthy) usage
        /\ listed healthy pbs 1 (Store <$> DatastoreResponse_Data usage)
             visited
        /\ reqs (Collect healthy "info" pbs State0)
           = scrape_requests pbs visited)
  /\ reqs (Collect snapshots_down "info" pbs State0)
     = [ api_request pbs (usage_url pbs);
         api_request pbs (namespace_url pbs "tank");
         snapshots_request pbs "tank" "prod" ].
Proof.
  destruct (Collect_requests_in_order healthy "info" pbs State0)
    as (_ & Hreqs & Hok).
  destruct (Collect_requests_in_order snapshots_down "info" pbs State0)
    as (_ & Hdown & _).
  split; [rewrite Hreqs; vm_compute; reflexivity|]. split.
  - apply Hok. vm_compute. reflexivity.
  - rewrite Hdown. vm_compute. reflexivity.
Defined.
